(** * httomolib: normalisation, median/dezinger filter, distortion correction

    A shallow embedding of the three preprocessing transforms of the
    repository,

    - [normalize_cupy], [normalize_raw_cuda] (src/httomolib/prep/normalize.py)
    - [median_filter3d], [remove_outlier3d]  (httomolib/misc/corr.py)
    - [correct_distortion], [_load_metadata_txt]
                                             (src/httomolib/correction.py)

    Python objects live in a store: an array is a location in [heap], so
    that in-place assignment ([data[i] = ...], [denom[denom < 1.0] = 1.0])
    and fresh allocation ([cp.empty], [a - b]) are told apart.  Exceptions
    are values of [exn]; a computation returns a [result] and the store it
    leaves behind.

    Array elements are exact rationals ([Q]): the rounding of the
    operations on arrays, overflow and NaN are outside the model, and the
    theorems on values are stated for values far from the largest float32.
    A Python float stored into a float32 array is rounded to binary32, and
    the cutoff step of the normalisation is also stated on one pixel in
    binary32, NaN and infinities included.  The functions the code takes
    from libraries and whose values are irrational or not in the repository
    ([np.sqrt], [cupy.log], Python's [float], the CUDA median kernel) are
    parameters of the development. *)

From Stdlib Require Import QArith Qabs Qround Qminmax Lqa ZArith List Ascii String Lia.
From Stdlib Require Import SpecFloat.
From stdpp Require Import base gmap strings list.

(** ** Exceptions *)

(** The [ValueError]s are told apart by their message. *)
Inductive message : Type :=
  | MsgStep            (* "Method doesn't work with the step in the preview larger than 1" *)
  | MsgNoSuchFile      (* "!!! No such file: %s !!! Please check the file path" *)
  | MsgCantOpen        (* "Can't open this file: %s" *)
  | MsgPreviewSize     (* "You need to increase the preview size for this plugin to work" *)
  | MsgData3D          (* "Input data must be a 3D stack of projections" *)
  | MsgFlats           (* "Input flats must be 2D or 3D data only" *)
  | MsgDarks           (* "Input darks must be 2D or 3D data only" *)
  | MsgDtype           (* "The input data should be either float32 or uint16 data type" *)
  | MsgZeroDim         (* "The length of one of dimensions is equal to zero" *)
  | MsgNot3D           (* "The input array must be a 3D array" *)
  | MsgKernelSize      (* "Please select a correct kernel size: 3, 5, 7, 9, 11, 13" *)
  | MsgFloat           (* float(): "could not convert string to float" *)
  | MsgBroadcast       (* numpy: "operands could not be broadcast together" *)
  | MsgEmptyReduction. (* numpy: "zero-size array to reduction operation" *)

Inductive exn : Type :=
  | TypeError
  | FileNotFoundError
  | IndexError
  | KeyError
  | AxisError
  | RuntimeError
  | UnboundLocalError
  | NoObject           (* a location outside the store; no Python name denotes one *)
  | NotANumber         (* no exception: the code goes on with a NaN, the model cannot *)
  | ValueError (m : message).

Inductive result (A : Type) : Type :=
  | Ok (a : A)
  | Raise (e : exn).
Arguments Ok {A} a.
Arguments Raise {A} e.

(** ** Arrays *)

Inductive dtype : Type :=
  | float32 | float64 | uint16 | uint8 | int16 | int32 | int64.

(** The element type of the compiled kernel variant. *)
Inductive ctype : Type := c_float | c_unsigned_short.

(** An [ndarray] is its element type, its shape and its elements, read at a
    multi-index. Only the indices inside [shape] are meaningful. *)
Record ndarray : Type := mk_ndarray {
  a_dtype : dtype;
  shape : list nat;
  item : list nat -> Q
}.

Definition ndim (a : ndarray) : nat := length (shape a).

Definition dtype_eqb (d1 d2 : dtype) : bool :=
  match d1, d2 with
  | float32, float32 | float64, float64 | uint16, uint16 | uint8, uint8
  | int16, int16 | int32, int32 | int64, int64 => true
  | _, _ => false
  end.

(** ** The store *)

Abbreviation loc := positive.

(** What a call leaves in the trace: kernel launches and resampling calls. *)
Inductive event : Type :=
  | Launch (elem : ctype) (kernel_size : Z) (grid block : nat * nat * nat)
  | Resample (frame : nat).

Record state : Type := mk_state {
  heap : gmap positive ndarray;
  files : gmap string string;   (* path -> text content *)
  device : Z;                   (* the active compute device *)
  trace : list event
}.

Definition M (A : Type) : Type := state -> result A * state.

Definition ret {A} (a : A) : M A := fun st => (Ok a, st).
Definition raise {A} (e : exn) : M A := fun st => (Raise e, st).
Definition bind {A B} (m : M A) (k : A -> M B) : M B :=
  fun st => match m st with
            | (Ok a, st') => k a st'
            | (Raise e, st') => (Raise e, st')
            end.

#[global] Instance M_ret : MRet M := @ret.
#[global] Instance M_bind : MBind M := fun A B k m => bind m k.

Definition set_heap (h : gmap positive ndarray) (st : state) : state :=
  mk_state h (files st) (device st) (trace st).

(** Reading the object a name is bound to. *)
Definition load (l : loc) : M ndarray :=
  fun st => match heap st !! l with
            | Some a => (Ok a, st)
            | None => (Raise NoObject, st)
            end.

(** A new array object. *)
Definition alloc (a : ndarray) : M loc :=
  fun st => let l := fresh (dom (heap st)) in
            (Ok l, set_heap (<[l := a]> (heap st)) st).

(** Writing into an existing array object. *)
Definition store (l : loc) (a : ndarray) : M unit :=
  fun st => (Ok tt, set_heap (<[l := a]> (heap st)) st).

Definition emit (e : event) : M unit :=
  fun st => (Ok tt, mk_state (heap st) (files st) (device st) (trace st ++ [e])).

(** [if c: raise e] *)
Definition raise_if (c : bool) (e : exn) : M unit :=
  if c then raise e else ret tt.

(** A step that cannot touch the store. *)
Definition lift {A} (r : result A) : M A := fun st => (r, st).

(** [cp.cuda.Device(gpu_id).use()] *)
Definition use_device (gpu_id : Z) : M unit :=
  fun st => (Ok tt, mk_state (heap st) (files st) gpu_id (trace st)).

(** ** Text: [str.splitlines], [str.split] *)

Definition char_in (codes : list nat) (c : ascii) : bool :=
  existsb (Nat.eqb (nat_of_ascii c)) codes.

(** Line boundaries of [str.splitlines]: LF, VT, FF, CR, FS, GS, RS, NEL. *)
Definition is_linebreak : ascii -> bool :=
  char_in [10; 11; 12; 13; 28; 29; 30; 133]%nat.

(** Whitespace of [str.split()]. *)
Definition is_space : ascii -> bool :=
  char_in [9; 10; 11; 12; 13; 28; 29; 30; 31; 32; 133; 160]%nat.

Definition is_empty (s : string) : bool :=
  match s with EmptyString => true | _ => false end.

(** [cur] is the line read so far. CR LF is one boundary, and a boundary at
    the very end opens no further line. *)
Fixpoint splitlines_from (cur s : string) : list string :=
  match s with
  | EmptyString => if is_empty cur then [] else [cur]
  | String c s' =>
      if is_linebreak c then
        match s' with
        | EmptyString => [cur]
        | String c' s'' =>
            if (nat_of_ascii c =? 13)%nat && (nat_of_ascii c' =? 10)%nat
            then cur :: splitlines_from EmptyString s''
            else cur :: splitlines_from EmptyString s'
        end
      else splitlines_from (cur +:+ String c EmptyString) s'
  end.

Definition splitlines (s : string) : list string :=
  splitlines_from EmptyString s.

(** [str.split()]: the maximal runs of non-whitespace characters. *)
Fixpoint split_from (cur s : string) : list string :=
  match s with
  | EmptyString => if is_empty cur then [] else [cur]
  | String c s' =>
      if is_space c then
        if is_empty cur then split_from EmptyString s'
        else cur :: split_from EmptyString s'
      else split_from (cur +:+ String c EmptyString) s'
  end.

Definition split (s : string) : list string := split_from EmptyString s.

(** ** Arithmetic on array elements *)

Definition Qltb (x y : Q) : bool :=
  match (x ?= y)%Q with Lt => true | _ => false end.

Definition Qsum (l : list Q) : Q := foldr Qplus 0%Q l.

Definition Qnat (n : nat) : Q := inject_Z (Z.of_nat n).

(** [np.clip(a, lo, hi)] is [minimum(maximum(a, lo), hi)]. *)
Definition clip (a lo hi : Q) : Q := Qmin (Qmax a lo) hi.

(** ** NumPy array operations *)

(** Broadcasting of two shapes, read from the last axis. *)
Fixpoint broadcast_rev (s1 s2 : list nat) : option (list nat) :=
  match s1, s2 with
  | [], s | s, [] => Some s
  | a :: s1', b :: s2' =>
      match broadcast_rev s1' s2' with
      | Some r =>
          if (a =? b)%nat then Some (a :: r)
          else if (a =? 1)%nat then Some (b :: r)
          else if (b =? 1)%nat then Some (a :: r)
          else None
      | None => None
      end
  end.

Definition broadcast_shapes (s1 s2 : list nat) : option (list nat) :=
  match broadcast_rev (rev s1) (rev s2) with
  | Some r => Some (rev r)
  | None => None
  end.

(** Where an operand of shape [s] is read for the result index [idx]: the
    leading axes it lacks are dropped and its axes of length 1 are read at
    0. *)
Definition bcast_index (s idx : list nat) : list nat :=
  zip_with (fun n i => if (n =? 1)%nat then 0%nat else i) s
           (drop (length idx - length s) idx).

Definition np_binop (f : Q -> Q -> Q) (dt : dtype) (a b : ndarray)
    : result ndarray :=
  match broadcast_shapes (shape a) (shape b) with
  | Some s =>
      Ok (mk_ndarray dt s
            (fun idx => f (item a (bcast_index (shape a) idx))
                          (item b (bcast_index (shape b) idx))))
  | None => Raise (ValueError MsgBroadcast)
  end.

(** NumPy's result type of an arithmetic operation on two arrays. *)
Definition is_float (d : dtype) : bool :=
  match d with float32 | float64 => true | _ => false end.

Definition is_signed (d : dtype) : bool :=
  match d with int16 | int32 | int64 => true | _ => false end.

Definition bits (d : dtype) : nat :=
  match d with
  | uint8 => 8 | uint16 | int16 => 16 | float32 | int32 => 32
  | float64 | int64 => 64
  end.

Definition signed_of_bits (n : nat) : dtype :=
  if (n <=? 16)%nat then int16 else if (n <=? 32)%nat then int32 else int64.

Definition unsigned_of_bits (n : nat) : dtype :=
  if (n <=? 8)%nat then uint8 else uint16.

Definition result_type (d1 d2 : dtype) : dtype :=
  if is_float d1 || is_float d2 then
    if dtype_eqb d1 float64 || dtype_eqb d2 float64 then float64
    else if is_float d1 && is_float d2 then float32
    else
      let i := if is_float d1 then d2 else d1 in
      if (bits i <=? 16)%nat then float32 else float64
  else if Bool.eqb (is_signed d1) (is_signed d2) then
    (if is_signed d1 then signed_of_bits else unsigned_of_bits)
      (Nat.max (bits d1) (bits d2))
  else
    let s := if is_signed d1 then d1 else d2 in
    let u := if is_signed d1 then d2 else d1 in
    if (bits u <? bits s)%nat then s else signed_of_bits (2 * bits u).

(** True division gives a float also on integers. *)
Definition result_type_div (d1 d2 : dtype) : dtype :=
  let t := result_type d1 d2 in
  if is_float t then t else float64.

Definition np_sub (a b : ndarray) : result ndarray :=
  np_binop Qminus (result_type (a_dtype a) (a_dtype b)) a b.

Definition np_div (a b : ndarray) : result ndarray :=
  np_binop Qdiv (result_type_div (a_dtype a) (a_dtype b)) a b.

(** [float32(x)]: the binary32 value nearest to [x], ties to even. The
    rounding is that of the division of the Standard Library, of the
    numerator by the denominator. Beyond the largest binary32 value NumPy
    gives [inf], which [Q] does not have; [x] is left as it is there. *)
Definition Q_of_binary32 (x : spec_float) (otherwise : Q) : Q :=
  match x with
  | S754_zero _ => 0%Q
  | S754_finite s m e =>
      Qred (inject_Z (if s then Zneg m else Zpos m) * 2 ^ e)%Q
  | _ => otherwise
  end.

Definition np_float32 (x : Q) : Q :=
  match Qnum x with
  | Z0 => 0%Q
  | Zpos n =>
      Q_of_binary32 (SFdiv 24 128 (S754_finite false n 0)
                       (S754_finite false (Qden x) 0)) x
  | Zneg n =>
      Q_of_binary32 (SFdiv 24 128 (S754_finite true n 0)
                       (S754_finite false (Qden x) 0)) x
  end.

(** A Python float [v] assigned into, or compared with, an array of dtype
    [dt]: it is taken in the dtype of the array. A Python float is a
    float64 already. *)
Definition np_cast (dt : dtype) (v : Q) : Q :=
  if dtype_eqb dt float32 then np_float32 v else v.

(** [mean(a, axis=0, dtype=float32)]. The mean over no frame at all is NaN
    in NumPy; here it is the [0] that [Q] gives to a division by [0]. *)
Definition np_mean0 (a : ndarray) : result ndarray :=
  match shape a with
  | [] => Raise AxisError
  | k :: s =>
      Ok (mk_ndarray float32 s
            (fun idx =>
               (Qsum (map (fun j => item a (j :: idx)) (seq 0 k)) / Qnat k)%Q))
  end.

(** [a[cp.newaxis, :, :]] *)
Definition newaxis (a : ndarray) : ndarray :=
  mk_ndarray (a_dtype a) (1%nat :: shape a) (fun idx => item a (tail idx)).

(** [a[mask] = v], in place, with [mask] the elements satisfying [p]. *)
Definition setmask (l : loc) (p : Q -> bool) (v : Q) : M unit :=
  a ← load l;
  store l (mk_ndarray (a_dtype a) (shape a)
             (fun idx => if p (item a idx) then v else item a idx)).

(** [np.max] and [np.min] of all elements. *)
Definition np_max (l : list Q) : result Q :=
  match l with
  | [] => Raise (ValueError MsgEmptyReduction)
  | v :: l' => Ok (foldl Qmax v l')
  end.

Definition np_min (l : list Q) : result Q :=
  match l with
  | [] => Raise (ValueError MsgEmptyReduction)
  | v :: l' => Ok (foldl Qmin v l')
  end.

(** The elements of a [height] x [width] matrix, row by row. *)
Definition ravel (f : nat -> nat -> Q) (height width : nat) : list Q :=
  flat_map (fun y => map (f y) (seq 0 width)) (seq 0 height).

(** A slice [start:stop] of an axis of length [n]: its first index and its
    length. Negative bounds count from the end, and all are cut to the
    axis. *)
Definition py_slice (n : nat) (start stop : Z) : nat * nat :=
  let norm v := (if v <? 0 then Z.max 0 (v + Z.of_nat n)
                 else Z.min v (Z.of_nat n))%Z in
  (Z.to_nat (norm start), Z.to_nat (norm stop - norm start)).

(** [m[crop:height - crop, crop:width - crop]] *)
Definition crop2d (m : ndarray) (crop : Z) (height width : nat) : ndarray :=
  let '(oy, ly) := py_slice height crop (Z.of_nat height - crop) in
  let '(ox, lx) := py_slice width crop (Z.of_nat width - crop) in
  mk_ndarray (a_dtype m) [ly; lx]
    (fun idx => match idx with
                | [y; x] => item m [oy + y; ox + x]%nat
                | _ => 0%Q
                end).

(** ** [scipy.ndimage.map_coordinates(input, coords, order=1, mode='reflect')]

    SciPy is not part of the repository.  Order 1 is linear interpolation
    between the two neighbours on each axis; [mode='reflect'] reads an index
    outside the axis as mirrored about the edge of the last pixel
    ([d c b a | a b c d | d c b a]). *)
Definition reflect_index (n : nat) (i : Z) : nat :=
  let m := (i mod (2 * Z.of_nat n))%Z in
  Z.to_nat (if (m <? Z.of_nat n)%Z then m else (2 * Z.of_nat n - 1 - m)%Z).

Definition interp_linear (input : ndarray) (yc xc : Q) : Q :=
  let h := nth 0 (shape input) 0%nat in
  let w := nth 1 (shape input) 0%nat in
  let iy := Qfloor yc in
  let ix := Qfloor xc in
  let fy := (yc - inject_Z iy)%Q in
  let fx := (xc - inject_Z ix)%Q in
  let px r c := item input [reflect_index h r; reflect_index w c] in
  ((1 - fy) * ((1 - fx) * px iy ix + fx * px iy (ix + 1)%Z)
   + fy * ((1 - fx) * px (iy + 1)%Z ix + fx * px (iy + 1)%Z (ix + 1)%Z))%Q.

(** The resampled frame, reshaped to [(height, width)]; [yd] and [xd] are
    the two coordinate arrays. *)
Definition map_coordinates (input : ndarray) (yd xd : nat -> nat -> Q)
    (height width : nat) : ndarray :=
  mk_ndarray (a_dtype input) [height; width]
    (fun idx => match idx with
                | [y; x] => interp_linear input (yd y x) (xd y x)
                | _ => 0%Q
                end).

(** ** Views of the input stack

    [np.expand_dims(data, axis=0)] is a view: it shares its elements with
    the image it was made from, and writing to it writes to the image. *)
Record view : Type := mk_view { base : loc; expanded : bool }.

Definition view_shape (v : view) (a : ndarray) : list nat :=
  if expanded v then 1%nat :: shape a else shape a.

(** [data[i]], read from the object [a] behind the view. *)
Definition view_frame (v : view) (a : ndarray) (i : nat) : ndarray :=
  if expanded v then a
  else mk_ndarray (a_dtype a) (tail (shape a)) (fun idx => item a (i :: idx)).

(** [data[i] = src] as it changes the object [a] behind the view: the
    elements of [src], broadcast to the shape of a frame, are copied into
    frame [i]. *)
Definition with_frame (v : view) (a : ndarray) (i : nat) (src : ndarray)
    : ndarray :=
  let read idx := item src (bcast_index (shape src) idx) in
  mk_ndarray (a_dtype a) (shape a)
    (fun idx =>
       if expanded v then read idx
       else match idx with
            | j :: idx' => if (j =? i)%nat then read idx' else item a idx
            | [] => item a idx
            end).

Definition view_assign (v : view) (i : nat) (src : ndarray) : M unit :=
  a ← load (base v);
  let fshape := tail (view_shape v a) in
  if bool_decide (broadcast_shapes (shape src) fshape = Some fshape) then
    store (base v) (with_frame v a i src)
  else raise (ValueError MsgBroadcast).

(** ** Instances of the library functions

    The theorems hold for every [np.sqrt], [cupy.log], [float] and median
    kernel. To run the model on an input one of each is needed; these are
    rational stand-ins. *)

(** Decimal literals [[+-]digits[.digits]], a part of what [float] reads. *)
Definition digit_of (c : ascii) : option Z :=
  let n := nat_of_ascii c in
  if (48 <=? n)%nat && (n <=? 57)%nat then Some (Z.of_nat (n - 48)) else None.

(** The leading digits of [s]: their value after [acc], their number after
    [n], and what follows them. *)
Fixpoint read_digits (s : string) (acc : Z) (n : nat) : Z * nat * string :=
  match s with
  | EmptyString => (acc, n, s)
  | String c s' =>
      match digit_of c with
      | Some d => read_digits s' (10 * acc + d)%Z (S n)
      | None => (acc, n, s)
      end
  end.

Definition decimal_unsigned (s : string) : option Q :=
  let '(ip, ni, rest) := read_digits s 0%Z 0%nat in
  match rest with
  | EmptyString => if (ni =? 0)%nat then None else Some (inject_Z ip)
  | String c rest' =>
      if (nat_of_ascii c =? 46)%nat then
        let '(fp, nf, rest'') := read_digits rest' 0%Z 0%nat in
        if is_empty rest'' && negb (ni + nf =? 0)%nat then
          let scale := (10 ^ Z.of_nat nf)%Z in
          Some (Qmake (ip * scale + fp) (Z.to_pos scale))
        else None
      else None
  end.

Definition decimal_float (s : string) : option Q :=
  match s with
  | String c s' =>
      if (nat_of_ascii c =? 45)%nat then Qopp <$> decimal_unsigned s'
      else if (nat_of_ascii c =? 43)%nat then decimal_unsigned s'
      else decimal_unsigned s
  | EmptyString => None
  end.

(** The square root, rounded down to a multiple of 2^-24. *)
Definition sqrt_dyadic (q : Q) : Q :=
  Qmake (Z.sqrt (Qfloor (q * inject_Z (2 ^ 48))%Q)) (2 ^ 24)%positive.

(** [2 * atanh ((x - 1) / (x + 1))], cut after four terms. *)
Definition log_series (x : Q) : Q :=
  if Qltb 0 x then
    let z := ((x - 1) / (x + 1))%Q in
    (2 * (z + z ^ 3 / 3 + z ^ 5 / 5 + z ^ 7 / 7))%Q
  else 0%Q.

Fixpoint Qinsert (v : Q) (l : list Q) : list Q :=
  match l with
  | [] => [v]
  | w :: l' => if Qle_bool v w then v :: l else w :: Qinsert v l'
  end.

Definition Qsort (l : list Q) : list Q := foldr Qinsert [] l.

(** Modelled from the spec: the CUDA kernel [median_general_kernel], whose
    file is not among the sources. The spec (4.2) has it gather the cube of
    side [kernel_size] about the voxel, out-of-range indices reflected back
    into range, take the median by a full sort, and write the median when
    [dif == 0] or when [|value - median| > dif], the value itself
    otherwise. *)
Definition median_kernel_spec (elem : ctype) (kernel_size : Z)
    (data : ndarray) (dif : Q) (idx : list nat) : Q :=
  match idx, shape data with
  | [z; y; x], [dz; dy; dx] =>
      let offsets :=
        map (fun k => (Z.of_nat k - kernel_size / 2)%Z)
            (seq 0 (Z.to_nat kernel_size)) in
      let at_offset n i o := reflect_index n (Z.of_nat i + o) in
      let cube :=
        flat_map (fun oz =>
          flat_map (fun oy =>
            map (fun ox =>
                   item data [at_offset dz z oz; at_offset dy y oy;
                              at_offset dx x ox])
                offsets) offsets) offsets in
      let median := nth (length cube / 2) (Qsort cube) 0%Q in
      let value := item data idx in
      if Qeq_bool dif 0 then median
      else if Qltb dif (Qabs (value - median)) then median
      else value
  | _, _ => 0%Q
  end.

(** A buffer of zeros for [cp.empty]. *)
Definition zero_filled (idx : list nat) : Q := 0%Q.

(** A store with nothing in it but the given arrays and files. *)
Definition state_of (arrays : list (positive * ndarray))
    (texts : list (string * string)) : state :=
  mk_state (list_to_map arrays) (list_to_map texts) 0%Z [].

(** An array of the given shape with one value everywhere, and one whose
    elements are listed frame by frame, row by row. *)
Definition full (dt : dtype) (s : list nat) (v : Q) : ndarray :=
  mk_ndarray dt s (fun _ => v).

Fixpoint flat_index (s idx : list nat) : nat :=
  match s, idx with
  | n :: s', i :: idx' => (i * fold_right Nat.mul 1 s' + flat_index s' idx')%nat
  | _, _ => 0%nat
  end.

Definition array_of (dt : dtype) (s : list nat) (elements : list Q)
    : ndarray :=
  mk_ndarray dt s (fun idx => nth (flat_index s idx) elements 0%Q).

(** ** One pixel in binary32

    The steps of lines 184-188 on one pixel, and the mean of lines 166-167
    over the frames of one pixel, in IEEE binary32 (precision 24, largest
    exponent 128), to run the scenario of the spec in the arithmetic of the
    arrays themselves. *)
Definition binary32 (z : Z) : spec_float :=
  binary_normalize 24 128 z 0 false.

Definition mean_binary32 (frames : list spec_float) : spec_float :=
  SFdiv 24 128 (foldl (SFadd 24 128) (binary32 0) frames)
        (binary32 (Z.of_nat (length frames))).

Definition normalize_pixel_binary32 (data flat dark cutoff : spec_float)
    : spec_float :=
  let denom := SFsub 24 128 flat dark in
  let denom := if SFltb denom (binary32 1) then binary32 1 else denom in
  let value := SFdiv 24 128 (SFsub 24 128 data dark) denom in
  if SFltb cutoff value then cutoff else value.

(** ** Inputs to run the model on *)

Definition counting (n : nat) : list Q :=
  map (fun i => inject_Z (Z.of_nat i)) (seq 0 n).

(** A preview of three axes, with the given starts and steps. *)
Definition preview_of (starts steps : list Z) : gmap string (list Z) :=
  list_to_map [("starts"%string, starts); ("stops"%string, [0; 0; 0]%Z);
               ("steps"%string, steps)].

(** A volume of 3 x 3 x 3 voxels 0, 1, ..., 26, and an image of 2 x 2
    pixels of 64-bit floats. *)
Definition volume_3x3x3 : ndarray :=
  array_of float32 [3; 3; 3]%nat (counting 27).

Definition st_volume : state := state_of [(1%positive, volume_3x3x3)] [].

Definition image_float64 : ndarray := full float64 [2; 2]%nat 1%Q.

Definition st_float64 : state := state_of [(1%positive, image_float64)] [].

(** Two frames of 2 x 2 pixels, 0 1 2 3 and 4 5 6 7, with a file that gives
    the centre (0.5, 0.5) and the coefficients 1.0, 0.0. *)
Definition stack_2x2x2 : ndarray := array_of float32 [2; 2; 2]%nat (counting 8).

Definition identity_file : string :=
  String.concat (String (ascii_of_nat 10) EmptyString)
    ["x_center 0.5"; "y_center 0.5"; "1.0"; "0.0"]%string.

Definition st_identity : state :=
  state_of [(1%positive, stack_2x2x2)]
           [("coeffs.txt"%string, identity_file)].

(** One frame of 3 x 3 pixels 0, 1, ..., 8, with a file that gives the
    centre (0, 0) and the one coefficient 0.5. *)
Definition stack_1x3x3 : ndarray := array_of float32 [1; 3; 3]%nat (counting 9).

Definition half_file : string :=
  String.concat (String (ascii_of_nat 10) EmptyString)
    ["0"; "0"; "0.5"]%string.

Definition st_half : state :=
  state_of [(1%positive, stack_1x3x3)] [("coeffs.txt"%string, half_file)].

Definition unit_preview : gmap string (list Z) :=
  preview_of [0; 0; 0]%Z [1; 1; 1]%Z.

Definition strided_preview : gmap string (list Z) :=
  preview_of [0; 0; 0]%Z [2; 1; 1]%Z.

(** One frame of 2 x 2 pixels with a flat and a dark of 2 x 2 pixels. *)
Definition st_single_calibration : state :=
  state_of [(1%positive, full float32 [1; 2; 2]%nat 12%Q);
            (2%positive, full float32 [2; 2]%nat 2%Q);
            (3%positive, full float32 [2; 2]%nat 2%Q)] [].


(** A small stack with two flats and two darks. *)
Definition st_small : state :=
  state_of [(1%positive, array_of float32 [1; 2; 2]%nat (counting 4));
            (2%positive, full float32 [2; 2; 2]%nat 3%Q);
            (3%positive, full float32 [2; 2; 2]%nat 1%Q)] [].

(** ** What the theorems speak of *)

(** The frame as [unwarp_frame] makes it from the object behind the view. *)
Definition unwarped (data : view) (a : ndarray) (yd xd : nat -> nat -> Q)
    (height width : nat) (crop : Z) (i : nat) : ndarray :=
  crop2d (map_coordinates (view_frame data a i) yd xd height width)
         crop height width.

(** The shape of [m[crop:height - crop, crop:width - crop]]. *)
Definition cropped_shape (height width : nat) (crop : Z) : list nat :=
  [(py_slice height crop (Z.of_nat height - crop)).2;
   (py_slice width crop (Z.of_nat width - crop)).2].

(** Every object of [st0] is still there, unchanged, in [st]. *)
Definition preserved (st0 st : state) : Prop :=
  forall l x, heap st0 !! l = Some x -> heap st !! l = Some x.

(** ** The kinds of error of the spec (section 7) *)

Definition is_type_error {A} (r : result A) : Prop :=
  r = Raise (ValueError MsgDtype).

Definition is_shape_error {A} (r : result A) : Prop :=
  r = Raise (ValueError MsgNot3D) \/ r = Raise (ValueError MsgZeroDim).

Definition is_parameter_error {A} (r : result A) : Prop :=
  r = Raise (ValueError MsgKernelSize).

Definition bad_dtype (a : ndarray) : Prop :=
  a_dtype a <> float32 /\ a_dtype a <> uint16.

Definition bad_shape (a : ndarray) : Prop :=
  ndim a <> 3%nat \/ In 0%nat (shape a).

Definition bad_kernel_size (kernel_size : Z) : Prop :=
  ~ In kernel_size [3; 5; 7; 9; 11; 13]%Z.

(** ** The normalisation of the spec (section 4.1) *)



Section Transforms.

(** The CUDA kernel [median_general_kernel<T, kernel_size>] is compiled from
    a file that is not among the sources; it is given [data], [dif] and the
    dimensions, and fills [out]. It is a parameter here: the value it writes
    at each voxel. *)
Variable median_general_kernel : ctype -> Z -> ndarray -> Q -> list nat -> Q.

(** What [cp.empty] leaves in a new buffer before the kernel fills it. *)
Variable uninitialised : list nat -> Q.

(** ** httomolib/misc/corr.py

    The decorators [method_all] and [nvtx.annotate] come from modules that
    are not among the sources; they are taken to leave the functions as
    they are written. *)

(** [median3d(grid_dims, block_dims, params)]. The limits the driver puts
    on a grid ([valid_launch] below) are not looked at here: a volume of
    more than 65535 rows or slices is outside the model. *)
Definition launch_median3d (elem : ctype) (kernel_size : Z)
    (grid block : nat * nat * nat) (data out : loc) (dif : Q) : M unit :=
  d ← load data;
  o ← load out;
  _ ← emit (Launch elem kernel_size grid block);
  store out (mk_ndarray (a_dtype o) (shape o)
               (median_general_kernel elem kernel_size d dif)).

Definition median_filter3d (data : loc) (kernel_size : option Z)
    (dif : option Q) : M loc :=
  let kernel_size := default 3%Z kernel_size in
  let dif := default 0%Q dif in
  d ← load data;
  let input_type := a_dtype d in
  _ ← raise_if (negb (dtype_eqb input_type float32 || dtype_eqb input_type uint16))
        (ValueError MsgDtype);
  _ ← (if (ndim d =? 3)%nat then
         raise_if (existsb (Nat.eqb 0) (shape d)) (ValueError MsgZeroDim)
       else raise (ValueError MsgNot3D));
  _ ← raise_if (negb (existsb (Z.eqb kernel_size) [3; 5; 7; 9; 11; 13]%Z))
        (ValueError MsgKernelSize);
  let elem := if dtype_eqb input_type float32 then c_float
              else c_unsigned_short in
  out ← alloc (mk_ndarray input_type (shape d) uninitialised);
  let dz := nth 0 (shape d) 0%nat in
  let dy := nth 1 (shape d) 0%nat in
  let dx := nth 2 (shape d) 0%nat in
  let block_x := 128%nat in
  let block_dims := (block_x, 1, 1)%nat in
  let grid_x := ((dx + block_x - 1) / block_x)%nat in
  let grid_y := dy in
  let grid_z := dz in
  let grid_dims := (grid_x, grid_y, grid_z) in
  _ ← launch_median3d elem kernel_size grid_dims block_dims data out dif;
  ret out.

Definition remove_outlier3d (data : loc) (kernel_size : option Z)
    (dif : option Q) : M loc :=
  let kernel_size := default 3%Z kernel_size in
  let dif := default (1 # 10)%Q dif in
  median_filter3d data (Some kernel_size) (Some dif).

(** ** src/httomolib/correction.py *)

(** Python's [float] on a token: [None] where it raises [ValueError]. *)
Variable py_float : string -> option Q.

Variable np_sqrt : Q -> Q.

(** [l[i]] for a list and [d[k]] for a dict. *)
Definition py_nth {A} (l : list A) (i : nat) : result A :=
  match l !! i with
  | Some a => Ok a
  | None => Raise IndexError
  end.

Definition py_key {A} (d : gmap string A) (k : string) : result A :=
  match d !! k with
  | Some a => Ok a
  | None => Raise KeyError
  end.

(** [open(file_path, 'r')] followed by [f.read()]. The store has the
    regular files that are read as text, and a path that is not among them
    is taken to name nothing: directories, pipes and files that cannot be
    read or decoded, on which [open] or [read] fail in other ways, are
    outside the model. *)
Definition open_read (file_path : option string) : M string :=
  fun st => match file_path with
            | None => (Raise TypeError, st)
            | Some p => match files st !! p with
                        | Some content => (Ok content, st)
                        | None => (Raise FileNotFoundError, st)
                        end
            end.

(** [float(i.split()[-1])] *)
Definition parse_line (i : string) : result Q :=
  match last (split i) with
  | None => Raise IndexError
  | Some token => match py_float token with
                  | Some v => Ok v
                  | None => Raise (ValueError MsgFloat)
                  end
  end.

(** The loop [for i in x: list_data.append(float(i.split()[-1]))]. *)
Fixpoint parse_lines (x : list string) (list_data : list Q)
    : result (list Q) :=
  match x with
  | [] => Ok list_data
  | i :: x' => match parse_line i with
               | Ok v => parse_lines x' (list_data ++ [v])
               | Raise e => Raise e
               end
  end.

Definition _load_metadata_txt (file_path : option string)
    : M (Q * Q * list Q) :=
  content ← open_read file_path;
  let x := splitlines content in
  list_data ← lift (parse_lines x []);
  xcenter ← lift (py_nth list_data 0);
  ycenter ← lift (py_nth list_data 1);
  let list_fact := drop 2 list_data in
  ret (xcenter, ycenter, list_fact).

(** The value of a line as the file format has it (spec, section 6): the
    float read from the last whitespace-separated token of the line. *)
Definition line_value (line : string) : option Q :=
  match last (split line) with
  | Some token => py_float token
  | None => None
  end.

(** The sampling map of lines 103-114, at row [y] and column [x]. *)
Definition xu_mat (x_center : Q) (y x : nat) : Q := (Qnat x - x_center)%Q.
Definition yu_mat (y_center : Q) (y x : nat) : Q := (Qnat y - y_center)%Q.

Definition ru_mat (x_center y_center : Q) (y x : nat) : Q :=
  np_sqrt (xu_mat x_center y x ^ 2 + yu_mat y_center y x ^ 2)%Q.

Definition fact_mat (x_center y_center : Q) (list_fact : list Q)
    (y x : nat) : Q :=
  Qsum (imap (fun i factor =>
                (factor * ru_mat x_center y_center y x ^ Z.of_nat i)%Q)
             list_fact).

Definition xd_mat (x_center y_center : Q) (list_fact : list Q)
    (width : nat) (y x : nat) : Q :=
  clip (x_center + fact_mat x_center y_center list_fact y x
                   * xu_mat x_center y x)%Q
       0%Q (inject_Z (Z.of_nat width - 1)).

Definition yd_mat (x_center y_center : Q) (list_fact : list Q)
    (height : nat) (y x : nat) : Q :=
  clip (y_center + fact_mat x_center y_center list_fact y x
                   * yu_mat y_center y x)%Q
       0%Q (inject_Z (Z.of_nat height - 1)).

(** The body of the loop, for frame [i]; it returns the new
    [mat_corrected]. *)
Definition unwarp_frame (data : view) (yd xd : nat -> nat -> Q)
    (height width : nat) (crop : Z) (i : nat) : M loc :=
  a ← load (base data);
  _ ← emit (Resample i);
  (* map_coordinates wants as many coordinate arrays as axes *)
  _ ← raise_if (negb (length (view_shape data a) =? 3)%nat) RuntimeError;
  let mat_corrected :=
    map_coordinates (view_frame data a i) yd xd height width in
  mat_corrected ← alloc (crop2d mat_corrected crop height width);
  src ← load mat_corrected;
  _ ← view_assign data i src;
  ret mat_corrected.

(** The loop over the frames. [mat_corrected] is the Python variable of that
    name: unbound before the first frame, then the array made for the last
    frame seen. *)
Fixpoint unwarp_loop (data : view) (yd xd : nat -> nat -> Q)
    (height width : nat) (crop : Z) (frames : list nat)
    (mat_corrected : option loc) : M (option loc) :=
  match frames with
  | [] => ret mat_corrected
  | i :: frames' =>
      m ← unwarp_frame data yd xd height width crop i;
      unwarp_loop data yd xd height width crop frames' (Some m)
  end.

(** [except IOError]: of the exceptions of the model only
    [FileNotFoundError] is one. *)
Definition except_IOError {A} (m : M A) (handler : M A) : M A :=
  fun st => match m st with
            | (Raise FileNotFoundError, st') => handler st'
            | r => r
            end.

(** [os.path.isfile]: the files of the store are regular files. *)
Definition isfile (path : string) : M bool :=
  fun st => (Ok (bool_decide (is_Some (files st !! path))), st).

(** The assignments [x_center = 0.0] and [y_center = 0.0] of lines 79-80 are
    overwritten on both branches that follow and are left out. *)
Definition correct_distortion (data : loc) (metadata_path : option string)
    (preview : gmap string (list Z))
    (center_from_left center_from_top : option Q)
    (polynomial_coeffs : option (list Q)) (crop : Z) : M loc :=
  d ← load data;
  let data := mk_view data (ndim d =? 2)%nat in
  '(x_center, y_center, list_fact) ← _load_metadata_txt metadata_path;
  shift ← lift (py_key preview "starts");
  step ← lift (py_key preview "steps");
  let x_dim := 1%nat in
  let y_dim := 0%nat in
  step_x ← lift (py_nth step x_dim);
  step_y ← lift (py_nth step y_dim);
  let step_check := (1 <? Z.max step_x step_y)%Z in
  _ ← raise_if step_check (ValueError MsgStep);
  x_offset ← lift (py_nth shift x_dim);
  y_offset ← lift (py_nth shift y_dim);
  '(x_center, y_center, list_fact) ←
    match metadata_path with
    | None =>
        match polynomial_coeffs with
        | None => raise TypeError       (* tuple(None) *)
        | Some coeffs =>
            match center_from_left, center_from_top with
            | Some from_left, Some from_top =>
                ret ((from_left - inject_Z x_offset)%Q,
                     (from_top - inject_Z y_offset)%Q, coeffs)
            | _, _ => raise NotANumber  (* np.asarray(None) is a NaN *)
            end
        end
    | Some path =>
        found ← isfile path;
        _ ← raise_if (negb found) (ValueError MsgNoSuchFile);
        except_IOError
          ('(x_center, y_center, list_fact) ← _load_metadata_txt metadata_path;
           ret ((x_center - inject_Z x_offset)%Q,
                (y_center - inject_Z y_offset)%Q, list_fact))
          (raise (ValueError MsgCantOpen))
    end;
  a ← load (base data);
  let data_shape := view_shape data a in
  height ← lift (py_nth data_shape (y_dim + 1));
  width ← lift (py_nth data_shape (x_dim + 1));
  let xd := xd_mat x_center y_center list_fact width in
  let yd := yd_mat x_center y_center list_fact height in
  y_max ← lift (np_max (ravel yd height width));
  y_min ← lift (np_min (ravel yd height width));
  let diff_y := (y_max - y_min)%Q in
  _ ← raise_if (Qltb diff_y 1) (ValueError MsgPreviewSize);
  frames ← lift (py_nth data_shape 0);
  mat_corrected ←
    unwarp_loop data yd xd height width crop (seq 0 frames) None;
  match mat_corrected with
  | Some m => ret m
  | None => raise UnboundLocalError
  end.

(** ** src/httomolib/prep/normalize.py *)

Variable np_log : Q -> Q.

(** [-log(data)], a new array; [data] is a quotient here, so of a float
    type, which the logarithm keeps. *)
Definition neg_log (a : ndarray) : ndarray :=
  mk_ndarray (a_dtype a) (shape a) (fun idx => (- np_log (item a idx))%Q).

Definition normalize_cupy (data flats darks : loc) (gpu_id : Z) (cutoff : Q)
    (minus_log nonnegativity remove_nans : bool) : M loc :=
  _ ← use_device gpu_id;
  darks ← load darks;
  darks ← lift (np_mean0 darks);
  flats ← load flats;
  flats ← lift (np_mean0 flats);
  d ← load data;
  _ ← raise_if (negb (ndim d =? 3)%nat) (ValueError MsgData3D);
  let flats := if (ndim flats =? 2)%nat then newaxis flats else flats in
  let darks := if (ndim darks =? 2)%nat then newaxis darks else darks in
  _ ← raise_if (negb (existsb (Nat.eqb (ndim flats)) [2; 3]%nat))
        (ValueError MsgFlats);
  _ ← raise_if (negb (existsb (Nat.eqb (ndim darks)) [2; 3]%nat))
        (ValueError MsgDarks);
  denom ← lift (np_sub flats darks);
  denom ← alloc denom;
  _ ← setmask denom (fun v => Qltb v 1) 1%Q;
  denom_now ← load denom;
  difference ← lift (np_sub d darks);
  quotient ← lift (np_div difference denom_now);
  data ← alloc quotient;
  let cutoff := np_cast (a_dtype quotient) cutoff in
  _ ← setmask data (fun v => Qltb cutoff v) cutoff;
  data ← (if minus_log then a ← load data; alloc (neg_log a) else ret data);
  _ ← (if nonnegativity then setmask data (fun v => Qltb v 0) 0%Q else ret tt);
  (* Q has no NaN: [cp.isnan] selects nothing *)
  _ ← (if remove_nans then setmask data (fun _ => false) 0%Q else ret tt);
  ret data.

(** ** What the further properties speak of *)

(** Every character of [s] satisfies [p]. *)
Fixpoint string_forall (p : ascii -> bool) (s : string) : bool :=
  match s with
  | EmptyString => true
  | String c s' => p c && string_forall p s'
  end.

(** A token: not empty, and no whitespace in it. *)
Definition is_token (s : string) : bool :=
  negb (is_empty s) && string_forall (fun c => negb (is_space c)) s.

(** Whether a frame can be unwarped depends on the shape of the stack
    alone. *)
Definition frame_fits (data : view) (a : ndarray) (height width : nat)
    (crop : Z) : Prop :=
  length (view_shape data a) = 3%nat
  /\ broadcast_shapes (cropped_shape height width crop)
       (tail (view_shape data a)) = Some (tail (view_shape data a)).

(** One image of 2 x 2 pixels 0 1 2 3, not in a stack, with the file of
    [st_identity]. *)
Definition image_2x2 : ndarray := array_of float32 [2; 2]%nat (counting 4).

Definition st_image : state :=
  state_of [(1%positive, image_2x2)] [("coeffs.txt"%string, identity_file)].

(** ** [normalize_raw_cuda]: the raw kernel and its launch

    A raw kernel is handed the device pointers of its arrays, so these are
    buffers here: the elements in C order, and nothing beyond the last of
    them. The arrays are taken to be C-contiguous, as [cp.zeros] and [mean]
    make them. *)
Record buffer : Type := mk_buffer { extent : nat; cell : nat -> Q }.

Definition numel (s : list nat) : nat := fold_right Nat.mul 1%nat s.

(** The multi-index of the element at offset [o] of an array of shape [s]. *)
Fixpoint unravel (s : list nat) (o : nat) : list nat :=
  match s with
  | [] => []
  | _ :: s' => (o / numel s')%nat :: unravel s' (o mod numel s')%nat
  end.

Definition buffer_of (a : ndarray) : buffer :=
  mk_buffer (numel (shape a)) (fun o => item a (unravel (shape a) o)).

Definition array_from (dt : dtype) (s : list nat) (m : buffer) : ndarray :=
  mk_ndarray dt s (fun idx => cell m (flat_index s idx)).

(** [p[o]] read and written; [None] is an access outside the buffer. *)
Definition read (m : buffer) (o : nat) : option Q :=
  if (o <? extent m)%nat then Some (cell m o) else None.

Definition write (m : buffer) (o : nat) (v : Q) : option buffer :=
  if (o <? extent m)%nat then
    Some (mk_buffer (extent m) (fun o' => if (o' =? o)%nat then v else cell m o'))
  else None.

(** [for (i = start; i < bound; i += stride)]: the values [i] takes. A
    stride of 1 or more ends the loop within [bound] rounds. *)
Fixpoint strided_loop (fuel start bound stride : nat) : list nat :=
  match fuel with
  | O => []
  | S fuel' =>
      if (start <? bound)%nat
      then start :: strided_loop fuel' (start + stride) bound stride
      else []
  end.

Definition strided (start bound stride : nat) : list nat :=
  strided_loop bound start bound stride.

(** The indices [(x, y, z)] below a [dim3]. *)
Definition indices3 (d : nat * nat * nat) : list (nat * nat * nat) :=
  let '(nx, ny, nz) := d in
  flat_map (fun z => flat_map (fun y => map (fun x => (x, y, z)) (seq 0 nx))
                       (seq 0 ny))
           (seq 0 nz).

(** The body of the two loops of the kernel (lines 93-112), on one element:
    [tmp] as it is written to [out[index]]. *)
Definition normalize_element (cutoff : Q)
    (take_log_param nonnegativity_param : Z) (data flat dark : Q) : Q :=
  let denom := (flat - dark)%Q in
  let denom := if Qltb denom 1 then 1%Q else denom in
  let tmp := ((data - dark) / denom)%Q in
  let tmp := if Qltb cutoff tmp then cutoff else tmp in
  let tmp := if (take_log_param =? 1)%Z then (- np_log tmp)%Q else tmp in
  if (nonnegativity_param =? 1)%Z then (if Qltb tmp 0 then 0%Q else tmp)
  else tmp.

(** One round of the inner loop. [base] is [bid * A * B], by which [data]
    and [out] were moved (lines 84-85). *)
Definition normalize_at (data flat dark : buffer) (cutoff : Q)
    (take_log_param nonnegativity_param : Z) (access : nat * nat)
    (out : buffer) : option buffer :=
  let '(base, index) := access in
  match read flat index, read dark index, read data (base + index) with
  | Some f, Some k, Some d =>
      write out (base + index)
        (normalize_element cutoff take_log_param nonnegativity_param d f k)
  | _, _, _ => None
  end.

(** The [index] values of one thread, in the order of its loops. *)
Definition thread_indices (A B : nat) (threadIdx blockDim : nat * nat * nat)
    : list nat :=
  let '(tx, ty, _) := threadIdx in
  let '(bdx, bdy, _) := blockDim in
  flat_map (fun a => map (fun b => (a * B + b)%nat) (strided tx B bdx))
           (strided ty A bdy).

(** The rounds of all threads of all blocks, as pairs [(base, index)]. No
    round reads what another writes, and two rounds that write the same
    element write the same value, so the order the threads take is of no
    account; they are run here block after block, thread after thread. *)
Definition normalize_accesses (grid block : nat * nat * nat) (A B : nat)
    : list (nat * nat) :=
  flat_map (fun blockIdx : nat * nat * nat =>
              let bid := blockIdx.1.1 in
              flat_map (fun threadIdx =>
                          map (fun index => ((bid * A * B)%nat, index))
                              (thread_indices A B threadIdx block))
                       (indices3 block))
           (indices3 grid).

Fixpoint run_accesses (step : nat * nat -> buffer -> option buffer)
    (accesses : list (nat * nat)) (out : buffer) : option buffer :=
  match accesses with
  | [] => Some out
  | access :: accesses' =>
      match step access out with
      | Some out' => run_accesses step accesses' out'
      | None => None
      end
  end.

(** The kernel computes in C [int], 32 bits and signed: a value of 2^31
    or more does not fit. The values here are never negative. *)
Definition int_fits (n : nat) : bool := (Z.of_nat n <? 2 ^ 31)%Z.

(** The [int] values one thread computes: [bid * A] and [bid * A * B] to
    move [data] and [out] (lines 84-85), then in the loops [a * B],
    [a * B + b] (line 93) and what the counters are stepped to. *)
Definition thread_ints (A B bid : nat) (threadIdx blockDim : nat * nat * nat)
    : list nat :=
  let '(tx, ty, _) := threadIdx in
  let '(bdx, bdy, _) := blockDim in
  [bid * A; bid * A * B]%nat
  ++ flat_map (fun a =>
                 flat_map (fun b => [a * B; a * B + b; b + bdx]%nat)
                          (strided tx B bdx)
                 ++ [(a + bdy)%nat])
              (strided ty A bdy).

(** The [int] values of the whole launch, the arguments [A] and [B] first. *)
Definition normalize_ints (grid block : nat * nat * nat) (A B : nat)
    : list nat :=
  [A; B]
  ++ flat_map (fun blockIdx : nat * nat * nat =>
                 flat_map (fun threadIdx =>
                             thread_ints A B blockIdx.1.1 threadIdx block)
                          (indices3 block))
              (indices3 grid).

(** How a launch ends when the driver accepts it: the kernel ran, or it
    reached outside a buffer, or an [int] did not fit, or it was handed a
    buffer that does not hold the [unsigned short] it reads. The last
    three are outside what the language defines; nothing is said of the
    store after them. *)
Inductive launched (A : Type) : Type :=
  | Completed (a : A)
  | OutOfBounds
  | IntOverflow
  | Reinterpreted.
#[global] Arguments Completed {A} a.
#[global] Arguments OutOfBounds {A}.
#[global] Arguments IntOverflow {A}.
#[global] Arguments Reinterpreted {A}.

(** CuPy hands the driver no dimension below 1: [max(1, grid[0])] and so
    on, in [Function.__call__]. *)
Definition at_least_1 (d : nat * nat * nat) : nat * nat * nat :=
  let '(x, y, z) := d in (Nat.max 1 x, Nat.max 1 y, Nat.max 1 z).

(** What the driver accepts: no dimension of 0, at most 1024 threads in a
    block and 64 along its [z], and a grid within 2^31 - 1 by 65535 by
    65535. *)
Definition valid_launch (grid block : nat * nat * nat) : bool :=
  let '(gx, gy, gz) := grid in
  let '(bx, by_, bz) := block in
  (0 <? gx)%nat && (0 <? gy)%nat && (0 <? gz)%nat
  && (0 <? bx)%nat && (0 <? by_)%nat && (0 <? bz)%nat
  && (bx * by_ * bz <=? 1024)%nat && (bz <=? 64)%nat
  && (Z.of_nat gx <? 2 ^ 31)%Z && (Z.of_nat gy <? 65536)%Z
  && (Z.of_nat gz <? 65536)%Z.

(** [norm_kernel(grids, blocks, params)]: the first tuple is the grid, the
    second the block. A launch the driver refuses is a [CUDADriverError],
    which is a [RuntimeError]. *)
Definition launch_normalize (grid block : nat * nat * nat) (data : loc)
    (flat dark : ndarray) (out : loc) (cutoff : Q)
    (take_log_param nonnegativity_param : Z) (A B : nat)
    : M (launched unit) :=
  let grid := at_least_1 grid in
  let block := at_least_1 block in
  _ ← raise_if (negb (valid_launch grid block)) RuntimeError;
  d ← load data;
  o ← load out;
  if negb (dtype_eqb (a_dtype d) uint16) then ret Reinterpreted
  else if negb (forallb int_fits (normalize_ints grid block A B)) then
    ret IntOverflow
  else
    match run_accesses
            (normalize_at (buffer_of d) (buffer_of flat) (buffer_of dark)
               cutoff take_log_param nonnegativity_param)
            (normalize_accesses grid block A B) (buffer_of o) with
    | Some m =>
        _ ← store out (array_from (a_dtype o) (shape o) m);
        ret (Completed tt)
    | None => ret OutOfBounds
    end.

Definition normalize_raw_cuda (data flats darks : loc) (gpu_id : Z)
    (cutoff : Q) (minus_log nonnegativity : bool) : M (launched loc) :=
  _ ← use_device gpu_id;
  darks ← load darks;
  dark0 ← lift (np_mean0 darks);
  flats ← load flats;
  flat0 ← lift (np_mean0 flats);
  d ← load data;
  out ← alloc (mk_ndarray float32 (shape d) (fun _ => 0%Q));
  let grids := (32, 32, 1)%nat in
  frames ← lift (py_nth (shape d) 0);
  let blocks := (frames, 1, 1)%nat in
  A ← lift (py_nth (shape d) 1);
  B ← lift (py_nth (shape d) 2);
  r ← launch_normalize grids blocks data flat0 dark0 out (np_float32 cutoff)
        (if minus_log then 1%Z else 0%Z)
        (if nonnegativity then 1%Z else 0%Z) A B;
  ret (match r with
       | Completed _ => Completed out
       | OutOfBounds => OutOfBounds
       | IntOverflow => IntOverflow
       | Reinterpreted => Reinterpreted
       end).


Definition st_one_frame : state :=
  state_of [(1%positive, full uint16 [1; 2; 2]%nat 12%Q);
            (2%positive, full float32 [2; 2; 2]%nat 3%Q);
            (3%positive, full float32 [2; 2; 2]%nat 1%Q)] [].




(** Frames whose offsets the kernel can compute in [int]: the 32 blocks of
    [A * B] elements stay below 2^31, and so does a counter stepped past
    [A] or [B]. *)
Definition int_sized (A B : nat) : Prop :=
  (Z.of_nat A < 2 ^ 25)%Z /\ (Z.of_nat B < 2 ^ 25)%Z
  /\ (32 * Z.of_nat A * Z.of_nat B < 2 ^ 31)%Z.

(** A file of one line, and a frame of -3 with two flats of 3 and two
    darks of 1. *)
Definition st_short_file : state :=
  state_of [(1%positive, stack_2x2x2)] [("coeffs.txt"%string, "0.5"%string)].


(** * Properties *)

(** ** Running the monad *)

(** [run] opens the operations of the monad; [reduce] then computes through
    the matches they leave, without opening anything else. *)
Ltac run :=
  unfold raise_if, lift;
  unfold mbind, M_bind, mret, M_ret, bind, ret, raise,
         load, alloc, store, emit, use_device, set_heap.

Ltac reduce := cbv beta iota zeta.

Lemma fresh_loc_ne (h : gmap positive ndarray) (l : loc) (a : ndarray) :
  h !! l = Some a -> fresh (dom h) <> l.
Proof.
  intros Hl E. pose proof (is_fresh (dom h)) as Hf.
  rewrite E in Hf. apply Hf, elem_of_dom. eauto.
Qed.

(** ** The median filter *)

Lemma dtype_eqb_eq d1 d2 : dtype_eqb d1 d2 = true <-> d1 = d2.
Proof. destruct d1, d2; simpl; split; congruence. Qed.

Lemma existsb_zero_In (s : list nat) : existsb (Nat.eqb 0) s = true <-> In 0%nat s.
Proof.
  rewrite existsb_exists. split.
  - intros (x & Hx & E). apply Nat.eqb_eq in E. now subst.
  - intros H. exists 0%nat. split; [assumption | reflexivity].
Qed.

Lemma existsb_Z_In (k : Z) (l : list Z) : existsb (Z.eqb k) l = true <-> In k l.
Proof.
  rewrite existsb_exists. split.
  - intros (x & Hx & E). apply Z.eqb_eq in E. now subst.
  - intros H. exists k. split; [assumption | apply Z.eqb_refl].
Qed.

(** C10. [remove_outlier3d] hands its three arguments to [median_filter3d]:
    on every array, kernel size and [dif] the two give the same result or
    the same error and leave the same store; with [dif] left out the one
    runs with 0.1 and the other with 0.0, and the default kernel size is
    the same. *)
Theorem remove_outlier3d_same_as_median_filter3d
    (data : loc) (kernel_size : option Z) (dif : Q) (st : state) :
  remove_outlier3d data kernel_size (Some dif) st
    = median_filter3d data kernel_size (Some dif) st
  /\ remove_outlier3d data kernel_size None st
    = median_filter3d data kernel_size (Some (1 # 10)%Q) st
  /\ median_filter3d data kernel_size None st
    = median_filter3d data kernel_size (Some 0%Q) st.
Proof.
  unfold remove_outlier3d.
  destruct kernel_size; repeat split; reflexivity.
Qed.

(** C6, as the code has it. The three checks run in the order dtype, shape,
    kernel size, and the first that fails decides the error: the dtype
    error is raised exactly on a dtype other than float32 and uint16; the
    shape error exactly when the dtype is accepted and the array is not
    3-dimensional or has an axis of length 0; the kernel-size error exactly
    when dtype and shape are accepted and the size is not one of 3, 5, 7, 9,
    11, 13. Whatever the error, the store and the trace are as before the
    call: nothing was allocated and no kernel was launched. *)
Theorem median_filter3d_errors
    (st : state) (data : loc) (a : ndarray) (kernel_size : option Z)
    (dif : option Q) (Hdata : heap st !! data = Some a) :
  let r := median_filter3d data kernel_size dif st in
  (is_type_error r.1 <-> bad_dtype a)
  /\ (is_shape_error r.1 <-> ~ bad_dtype a /\ bad_shape a)
  /\ (is_parameter_error r.1 <->
        ~ bad_dtype a /\ ~ bad_shape a
        /\ bad_kernel_size (default 3%Z kernel_size))
  /\ (forall e, r.1 = Raise e -> r.2 = st).
Proof.
  unfold median_filter3d, launch_median3d, is_type_error, is_shape_error,
    is_parameter_error, bad_dtype, bad_shape, bad_kernel_size, ndim.
  run. reduce. rewrite Hdata.
  set (ks := default 3%Z kernel_size).
  pose proof (dtype_eqb_eq (a_dtype a) float32) as Hf.
  pose proof (dtype_eqb_eq (a_dtype a) uint16) as Hu.
  pose proof (Nat.eqb_eq (length (shape a)) 3) as Hd.
  pose proof (existsb_zero_In (shape a)) as Hz.
  pose proof (existsb_Z_In ks [3; 5; 7; 9; 11; 13]%Z) as Hk.
  destruct (dtype_eqb (a_dtype a) float32);
    destruct (dtype_eqb (a_dtype a) uint16); cbn [orb negb fst snd]; reduce;
    try (destruct (length (shape a) =? 3)%nat; reduce);
    try (destruct (existsb (Nat.eqb 0) (shape a)); reduce);
    try (destruct (existsb (Z.eqb ks) [3; 5; 7; 9; 11; 13]%Z);
         cbn [negb heap files device trace]; reduce);
    try (rewrite lookup_insert_ne by (eapply fresh_loc_ne; eassumption);
         rewrite Hdata; cbn [heap files device trace]; reduce;
         rewrite lookup_insert_eq; reduce);
    cbn [fst snd];
    (split; [| split; [| split]]);
    try (intros e He; first [reflexivity | discriminate He]);
    intuition (try discriminate; try congruence).
Qed.

(** ** The coefficient file *)

Lemma bind_Ok {A B} (m : M A) (k : A -> M B) st a st1 :
  m st = (Ok a, st1) -> (x ← m; k x) st = k a st1.
Proof. intros H. run. now rewrite H. Qed.

Lemma bind_Raise {A B} (m : M A) (k : A -> M B) st e st1 :
  m st = (Raise e, st1) -> (x ← m; k x) st = (Raise e, st1).
Proof. intros H. run. now rewrite H. Qed.

Lemma bind_inv {A B} (m : M A) (k : A -> M B) st b st2 :
  (x ← m; k x) st = (Ok b, st2) ->
  exists a st1, m st = (Ok a, st1) /\ k a st1 = (Ok b, st2).
Proof.
  run. destruct (m st) as [[a|e] st1]; intros H.
  - now exists a, st1.
  - discriminate.
Qed.

Lemma lift_inv {A} (r : result A) st a st1 :
  lift r st = (Ok a, st1) -> r = Ok a /\ st1 = st.
Proof. unfold lift. intros H. now inversion H. Qed.

Lemma raise_if_inv c e st u st1 :
  raise_if c e st = (Ok u, st1) -> c = false /\ st1 = st.
Proof.
  unfold raise_if. destruct c; run; intros H; [discriminate|].
  now inversion H.
Qed.

Lemma parse_line_value line v :
  line_value line = Some v -> parse_line line = Ok v.
Proof.
  unfold line_value, parse_line.
  destruct (last (split line)); [|discriminate].
  now intros ->.
Qed.

Lemma parse_lines_values lines values :
  Forall2 (fun line v => line_value line = Some v) lines values ->
  forall list_data, parse_lines lines list_data = Ok (list_data ++ values).
Proof.
  induction 1 as [|line v lines values Hv _ IH]; intros list_data; simpl.
  - now rewrite app_nil_r.
  - rewrite (parse_line_value _ _ Hv), IH, <- app_assoc. reflexivity.
Qed.

(** The loader reads; it writes nothing. *)
Lemma load_metadata_txt_state file_path st :
  (_load_metadata_txt file_path st).2 = st.
Proof.
  unfold _load_metadata_txt, open_read. run. reduce.
  destruct file_path as [p|]; [|reflexivity].
  destruct (files st !! p); [|reflexivity].
  destruct (parse_lines _ _) as [l|]; [|reflexivity].
  unfold py_nth.
  destruct (l !! 0%nat); [|reflexivity].
  destruct (l !! 1%nat); reflexivity.
Qed.

(** C9. A file whose first line has the value [xcenter], whose second line
    has the value [ycenter] and whose further lines have, in order, the
    values [list_fact], the value of a line being the float read from its
    last whitespace-separated token, is loaded as
    [(xcenter, ycenter, list_fact)]. *)
Theorem load_metadata_txt_returns
    (st : state) (path content line1 line2 : string) (lines : list string)
    (xcenter ycenter : Q) (list_fact : list Q)
    (Hfile : files st !! path = Some content)
    (Hlines : splitlines content = line1 :: line2 :: lines)
    (Hx : line_value line1 = Some xcenter)
    (Hy : line_value line2 = Some ycenter)
    (Hfact : Forall2 (fun line v => line_value line = Some v) lines list_fact) :
  _load_metadata_txt (Some path) st = (Ok (xcenter, ycenter, list_fact), st).
Proof.
  unfold _load_metadata_txt, open_read. run. reduce.
  rewrite Hfile, Hlines.
  rewrite (parse_lines_values (line1 :: line2 :: lines)
             (xcenter :: ycenter :: list_fact)).
  - reflexivity.
  - repeat constructor; assumption.
Qed.

(** ** The distortion correction: what is checked, and when *)

Lemma load_metadata_txt_None st :
  _load_metadata_txt None st = (Raise TypeError, st).
Proof. reflexivity. Qed.

(** C1, what the code does. The coefficient file is opened before anything
    else is looked at (line 61): a call with [metadata_path=None] ends there
    in the [TypeError] of [open(None)], whatever centre and coefficients it
    was given, and the store is as it was. *)
Theorem correct_distortion_without_file
    (st : state) (data : loc) (a : ndarray) (preview : gmap string (list Z))
    (center_from_left center_from_top : option Q)
    (polynomial_coeffs : option (list Q)) (crop : Z)
    (Hdata : heap st !! data = Some a) :
  correct_distortion data None preview center_from_left center_from_top
    polynomial_coeffs crop st = (Raise TypeError, st).
Proof.
  unfold correct_distortion.
  erewrite bind_Ok by (unfold load; rewrite Hdata; reflexivity).
  erewrite bind_Raise by apply load_metadata_txt_None.
  reflexivity.
Qed.

(** A path to no file ends on the same line, in the exception of [open];
    the check [os.path.isfile] of line 86 is never reached with one. *)
Lemma correct_distortion_missing_file
    (st : state) (data : loc) (a : ndarray) (path : string)
    (preview : gmap string (list Z))
    (center_from_left center_from_top : option Q)
    (polynomial_coeffs : option (list Q)) (crop : Z) :
  heap st !! data = Some a ->
  files st !! path = None ->
  correct_distortion data (Some path) preview center_from_left
    center_from_top polynomial_coeffs crop st = (Raise FileNotFoundError, st).
Proof.
  intros Hdata Hfile. unfold correct_distortion.
  erewrite bind_Ok by (unfold load; rewrite Hdata; reflexivity).
  erewrite bind_Raise; [reflexivity|].
  unfold _load_metadata_txt.
  erewrite bind_Raise; [reflexivity|].
  unfold open_read. now rewrite Hfile.
Qed.

(** C7, what the code does. With a step above 1 on one of the two axes the
    call always ends in an exception and leaves store and trace as they
    were, so nothing was resampled. The exception is the [ValueError] of the
    step check exactly when the file could be loaded on line 61; if not, it
    is the exception of that load, which for [metadata_path=None] is a
    [TypeError]. *)
Theorem correct_distortion_step_above_1
    (st : state) (data : loc) (a : ndarray) (metadata_path : option string)
    (preview : gmap string (list Z)) (shift step : list Z) (step_x step_y : Z)
    (center_from_left center_from_top : option Q)
    (polynomial_coeffs : option (list Q)) (crop : Z)
    (Hdata : heap st !! data = Some a)
    (Hstarts : preview !! "starts"%string = Some shift)
    (Hsteps : preview !! "steps"%string = Some step)
    (Hx : step !! 1%nat = Some step_x)
    (Hy : step !! 0%nat = Some step_y)
    (Habove : (1 < step_x \/ 1 < step_y)%Z) :
  let r := correct_distortion data metadata_path preview center_from_left
             center_from_top polynomial_coeffs crop st in
  r.2 = st
  /\ (exists e, r.1 = Raise e)
  /\ (r.1 = Raise (ValueError MsgStep) <->
        exists model, (_load_metadata_txt metadata_path st).1 = Ok model)
  /\ (metadata_path = None -> r.1 = Raise TypeError).
Proof.
  unfold correct_distortion.
  erewrite bind_Ok by (unfold load; rewrite Hdata; reflexivity).
  pose proof (load_metadata_txt_state metadata_path st) as Hst.
  destruct (_load_metadata_txt metadata_path st) as [[model|e] st1] eqn:El;
    simpl in Hst; subst st1.
  - erewrite bind_Ok by exact El.
    destruct model as [[xc yc] lf].
    unfold py_key, py_nth. run. reduce.
    rewrite Hstarts. reduce. rewrite Hsteps. reduce.
    rewrite Hx. reduce. rewrite Hy. reduce.
    assert (Hc : (1 <? Z.max step_x step_y)%Z = true) by (apply Z.ltb_lt; lia).
    rewrite Hc. cbn [fst snd].
    repeat split; eauto.
    intros ->. discriminate El.
  - erewrite bind_Raise by exact El. cbn [fst snd].
    repeat split; eauto.
    + intros H. exfalso. inversion H; subst e. clear H. revert El.
      unfold _load_metadata_txt, open_read, py_nth. run. reduce.
      destruct metadata_path as [p|]; [|discriminate].
      destruct (files st !! p) as [content|]; [|discriminate].
      destruct (parse_lines _ _) as [l|e'] eqn:Ep; reduce.
      * destruct (l !! 0%nat); reduce; [|discriminate].
        destruct (l !! 1%nat); reduce; discriminate.
      * intros E. inversion E; subst e'. clear E. revert Ep.
        generalize (@nil Q).
        induction (splitlines content) as [|line lines IH]; simpl;
          [discriminate|].
        intros acc. unfold parse_line.
        destruct (last (split line)) as [token|]; [|discriminate].
        destruct (py_float token); [apply IH | discriminate].
    + intros [model Hm]. discriminate Hm.
    + intros ->. rewrite load_metadata_txt_None in El. now inversion El.
Qed.

(** ** The normalisation *)

(** One step of a computation that goes well, [tac] showing that it does. *)
Tactic Notation "ok" tactic3(tac) := erewrite bind_Ok by tac; reduce.

Lemma load_Some l a st : heap st !! l = Some a -> load l st = (Ok a, st).
Proof. unfold load. now intros ->. Qed.

Lemma setmask_Some l a p v st :
  heap st !! l = Some a ->
  setmask l p v st
  = (Ok tt, set_heap (<[l := mk_ndarray (a_dtype a) (shape a)
                             (fun idx => if p (item a idx) then v
                                         else item a idx)]> (heap st)) st).
Proof. intros H. unfold setmask. erewrite bind_Ok by (apply load_Some, H). reflexivity. Qed.








Lemma np_mean0_cons (a : ndarray) (k : nat) (s : list nat) :
  shape a = k :: s ->
  np_mean0 a
  = Ok (mk_ndarray float32 s
          (fun idx =>
             (Qsum (map (fun j => item a (j :: idx)) (seq 0 k)) / Qnat k)%Q)).
Proof. unfold np_mean0. now intros ->. Qed.



Ltac store_step :=
  first
    [ ok reflexivity
    | ok (apply setmask_Some; cbn [heap set_heap]; apply lookup_insert_eq)
    | ok (apply load_Some; cbn [heap set_heap]; apply lookup_insert_eq)
    | ok (erewrite bind_Ok
            by (apply load_Some; cbn [heap set_heap]; apply lookup_insert_eq);
          reflexivity) ].


(** ** The cutoff in binary32 *)






(** C4, what the code does. The means over axis 0 are taken before the
    number of axes is looked at, so a flat given as one 2-dimensional frame
    has become 1-dimensional by then: on a 3-dimensional stack with a
    2-dimensional flat and a 2-dimensional dark the call ends in the
    [ValueError] "Input flats must be 2D or 3D data only". *)
Theorem normalize_cupy_2d_calibration_raises
    (st : state) (data flats darks : loc) (d f k : ndarray)
    (gpu_id : Z) (cutoff : Q) (minus_log nonnegativity remove_nans : bool)
    (Hdata : heap st !! data = Some d)
    (Hflats : heap st !! flats = Some f)
    (Hdarks : heap st !! darks = Some k)
    (Nd : ndim d = 3%nat) (Nf : ndim f = 2%nat) (Nk : ndim k = 2%nat) :
  (normalize_cupy data flats darks gpu_id cutoff minus_log nonnegativity
     remove_nans st).1 = Raise (ValueError MsgFlats).
Proof.
  unfold ndim in Nf, Nk.
  destruct (shape f) as [|f0 [|f1 [|]]] eqn:Sf; try discriminate.
  destruct (shape k) as [|k0 [|k1 [|]]] eqn:Sk; try discriminate.
  unfold normalize_cupy.
  ok (unfold use_device; reflexivity).
  ok (apply load_Some; exact Hdarks).
  ok (unfold lift; rewrite (np_mean0_cons _ _ _ Sk); reflexivity).
  ok (apply load_Some; exact Hflats).
  ok (unfold lift; rewrite (np_mean0_cons _ _ _ Sf); reflexivity).
  ok (apply load_Some; exact Hdata).
  rewrite Nd. cbn [Nat.eqb negb].
  ok reflexivity.
  reflexivity.
Qed.

(** ** The distortion correction: the loop over the frames *)

Lemma load_inv l st a st1 :
  load l st = (Ok a, st1) -> heap st !! l = Some a /\ st1 = st.
Proof.
  unfold load. destruct (heap st !! l); intros H; inversion H; auto.
Qed.

Lemma unwarp_frame_inv data yd xd height width crop i st m st' :
  unwarp_frame data yd xd height width crop i st = (Ok m, st') ->
  exists a,
    heap st !! base data = Some a
    /\ length (view_shape data a) = 3%nat
    /\ m = fresh (dom (heap st))
    /\ broadcast_shapes (shape (unwarped data a yd xd height width crop i))
         (tail (view_shape data a)) = Some (tail (view_shape data a))
    /\ st' = mk_state
               (<[base data := with_frame data a i
                                 (unwarped data a yd xd height width crop i)]>
                  (<[m := unwarped data a yd xd height width crop i]>
                     (heap st)))
               (files st) (device st) (trace st ++ [Resample i]).
Proof.
  unfold unwarp_frame. intros H.
  apply bind_inv in H as (a & st1 & Hload & H).
  apply load_inv in Hload as [Ha ->].
  apply bind_inv in H as ([] & st1 & Hemit & H).
  unfold emit in Hemit. inversion Hemit; subst st1; clear Hemit.
  apply bind_inv in H as ([] & st1 & Hrank & H).
  apply raise_if_inv in Hrank as [Hrank ->].
  apply bind_inv in H as (m' & st1 & Halloc & H).
  unfold alloc in Halloc. cbn [heap] in Halloc.
  inversion Halloc; subst m' st1; clear Halloc.
  apply bind_inv in H as (src & st1 & Hsrc & H).
  apply load_inv in Hsrc as [Hsrc ->].
  unfold set_heap in Hsrc. cbn [heap] in Hsrc.
  rewrite lookup_insert_eq in Hsrc. inversion Hsrc; subst src; clear Hsrc.
  apply bind_inv in H as ([] & st1 & Hassign & H).
  unfold ret in H. inversion H; subst; clear H.
  unfold view_assign in Hassign.
  apply bind_inv in Hassign as (a1 & st1 & Hload & Hassign).
  apply load_inv in Hload as [Ha1 ->].
  unfold set_heap in Ha1. cbn [heap] in Ha1.
  rewrite lookup_insert_ne in Ha1 by (eapply fresh_loc_ne; eassumption).
  rewrite Ha in Ha1. inversion Ha1; subst a1; clear Ha1.
  exists a. split; [assumption|].
  split. { apply Nat.eqb_eq. now destruct (_ =? 3)%nat. }
  split; [reflexivity|].
  fold (unwarped data a yd xd height width crop i) in Hassign |- *.
  destruct (bool_decide _) eqn:Eb in Hassign.
  - apply bool_decide_eq_true in Eb. split; [exact Eb|].
    unfold store, set_heap in Hassign. cbn [heap files device trace] in Hassign.
    inversion Hassign. reflexivity.
  - discriminate Hassign.
Qed.

Lemma crop2d_shape m crop height width :
  shape (crop2d m crop height width)
  = [(py_slice height crop (Z.of_nat height - crop)).2;
     (py_slice width crop (Z.of_nat width - crop)).2].
Proof.
  unfold crop2d.
  destruct (py_slice height _ _), (py_slice width _ _). reflexivity.
Qed.

Lemma unwarped_shape data a yd xd height width crop i :
  shape (unwarped data a yd xd height width crop i)
  = cropped_shape height width crop.
Proof. unfold unwarped. now rewrite crop2d_shape. Qed.

Lemma py_slice_crop (n : nat) (crop : Z) :
  (0 <= crop)%Z ->
  (py_slice n crop (Z.of_nat n - crop)).2 = Z.to_nat (Z.of_nat n - 2 * crop).
Proof.
  intros Hc. unfold py_slice. cbn [snd].
  destruct (crop <? 0)%Z eqn:E1; [apply Z.ltb_lt in E1; lia|].
  destruct (Z.of_nat n - crop <? 0)%Z eqn:E2;
    [apply Z.ltb_lt in E2 | apply Z.ltb_ge in E2]; lia.
Qed.

(** What the loop returns is an array made in the loop, of two axes, at a
    place that held nothing before; the objects other than the input are as
    they were, and every frame leaves a [Resample] in the trace. *)
Lemma unwarp_loop_returned data yd xd height width crop frames :
  forall mc st r st',
    unwarp_loop data yd xd height width crop frames mc st = (Ok r, st') ->
    (forall l x, l <> base data -> heap st !! l = Some x ->
                 heap st' !! l = Some x)
    /\ (forall l, heap st' !! l = None -> heap st !! l = None)
    /\ (forall m, r = Some m ->
          (mc = Some m /\ frames = [])
          \/ (heap st !! m = None
              /\ exists c, heap st' !! m = Some c
                           /\ shape c = cropped_shape height width crop))
    /\ (r = None -> mc = None /\ frames = [])
    /\ trace st' = trace st ++ map Resample frames.
Proof.
  induction frames as [|i frames IH]; intros mc st r st' H.
  - simpl in H. unfold ret in H. inversion H; subst.
    rewrite app_nil_r. repeat split; auto.
  - simpl in H. apply bind_inv in H as (m & st1 & Hstep & H).
    apply unwarp_frame_inv in Hstep
      as (a & Ha & _ & Hm & _ & Hst1).
    pose proof H as Hloop.
    apply IH in H as (Hkeep & Hnone & Hret & Hno & Htrace).
    assert (Hbase : m <> base data).
    { subst m. apply fresh_loc_ne with a. exact Ha. }
    assert (Hfresh : heap st !! m = None).
    { subst m. apply not_elem_of_dom, is_fresh. }
    assert (Hkeep1 : forall l x, l <> base data -> heap st !! l = Some x ->
                                 heap st1 !! l = Some x).
    { intros l x Hl Hx. subst st1. cbn [heap].
      rewrite lookup_insert_ne by congruence.
      rewrite lookup_insert_ne by congruence. exact Hx. }
    assert (Hnone1 : forall l, heap st1 !! l = None -> heap st !! l = None).
    { intros l Hl. subst st1. cbn [heap] in Hl.
      apply lookup_insert_None in Hl as [Hl _].
      now apply lookup_insert_None in Hl as [Hl _]. }
    split; [auto|]. split; [auto|]. split; [|split].
    + intros m' Hr. right. destruct (Hret m' Hr) as [[Emc Ef]|[Hn1 Hc]].
      * inversion Emc; subst m' frames. split; [exact Hfresh|].
        simpl in Hloop. unfold ret in Hloop. inversion Hloop; subst st'.
        exists (unwarped data a yd xd height width crop i).
        split; [|apply unwarped_shape].
        rewrite Hst1. cbn [heap].
        rewrite lookup_insert_ne by congruence. apply lookup_insert_eq.
      * split; [auto|exact Hc].
    + intros Hr. destruct (Hno Hr) as [? _]. discriminate.
    + rewrite Htrace. subst st1. cbn [trace]. now rewrite <- app_assoc.
Qed.

(** ** The distortion correction: a call that returns *)

Lemma py_nth_inv {A} (l : list A) i x : py_nth l i = Ok x -> l !! i = Some x.
Proof. unfold py_nth. destruct (l !! i); intros H; now inversion H. Qed.

Lemma py_key_inv {A} (d : gmap string A) k x :
  py_key d k = Ok x -> d !! k = Some x.
Proof. unfold py_key. destruct (d !! k); intros H; now inversion H. Qed.

Lemma correct_distortion_inv data metadata_path preview center_from_left
    center_from_top polynomial_coeffs crop st m st' :
  correct_distortion data metadata_path preview center_from_left
    center_from_top polynomial_coeffs crop st = (Ok m, st') ->
  exists a path xc yc lf shift step x_offset y_offset height width frames,
    heap st !! data = Some a
    /\ metadata_path = Some path
    /\ _load_metadata_txt (Some path) st = (Ok (xc, yc, lf), st)
    /\ preview !! "starts"%string = Some shift
    /\ preview !! "steps"%string = Some step
    /\ (exists step_x step_y,
          step !! 1%nat = Some step_x /\ step !! 0%nat = Some step_y
          /\ (step_x <= 1)%Z /\ (step_y <= 1)%Z)
    /\ shift !! 1%nat = Some x_offset
    /\ shift !! 0%nat = Some y_offset
    /\ view_shape (mk_view data (ndim a =? 2)%nat) a !! 0%nat = Some frames
    /\ view_shape (mk_view data (ndim a =? 2)%nat) a !! 1%nat = Some height
    /\ view_shape (mk_view data (ndim a =? 2)%nat) a !! 2%nat = Some width
    /\ unwarp_loop (mk_view data (ndim a =? 2)%nat)
         (yd_mat (xc - inject_Z x_offset) (yc - inject_Z y_offset) lf height)
         (xd_mat (xc - inject_Z x_offset) (yc - inject_Z y_offset) lf width)
         height width crop (seq 0 frames) None st = (Ok (Some m), st').
Proof.
  unfold correct_distortion. intros H.
  apply bind_inv in H as (a & st1 & Hload & H).
  apply load_inv in Hload as [Ha ->].
  apply bind_inv in H as ([[xc yc] lf] & st1 & Hmeta & H).
  pose proof (load_metadata_txt_state metadata_path st) as Hst.
  rewrite Hmeta in Hst. simpl in Hst. subst st1.
  destruct metadata_path as [path|];
    [|rewrite load_metadata_txt_None in Hmeta; discriminate].
  apply bind_inv in H as (shift & st1 & Hshift & H).
  apply lift_inv in Hshift as [Hshift ->].
  apply bind_inv in H as (step & st1 & Hstep & H).
  apply lift_inv in Hstep as [Hstep ->].
  apply bind_inv in H as (step_x & st1 & Hsx & H).
  apply lift_inv in Hsx as [Hsx ->].
  apply bind_inv in H as (step_y & st1 & Hsy & H).
  apply lift_inv in Hsy as [Hsy ->].
  apply bind_inv in H as ([] & st1 & Hcheck & H).
  apply raise_if_inv in Hcheck as [Hcheck ->].
  apply bind_inv in H as (x_offset & st1 & Hxo & H).
  apply lift_inv in Hxo as [Hxo ->].
  apply bind_inv in H as (y_offset & st1 & Hyo & H).
  apply lift_inv in Hyo as [Hyo ->].
  apply bind_inv in H as ([[x_center y_center] list_fact] & st1 & Hmodel & H).
  apply bind_inv in Hmodel as (found & st2 & Hfound & Hmodel).
  unfold isfile in Hfound. inversion Hfound; subst found st2; clear Hfound.
  apply bind_inv in Hmodel as ([] & st2 & Hexists & Hmodel).
  apply raise_if_inv in Hexists as [_ ->].
  unfold except_IOError in Hmodel.
  erewrite bind_Ok in Hmodel by exact Hmeta.
  unfold ret in Hmodel. inversion Hmodel; subst x_center y_center list_fact st1.
  clear Hmodel.
  apply bind_inv in H as (a1 & st1 & Hload & H).
  apply load_inv in Hload as [Ha1 ->]. cbn [base] in Ha1.
  rewrite Ha in Ha1. inversion Ha1; subst a1; clear Ha1.
  apply bind_inv in H as (height & st1 & Hh & H).
  apply lift_inv in Hh as [Hh ->].
  apply bind_inv in H as (width & st1 & Hw & H).
  apply lift_inv in Hw as [Hw ->].
  apply bind_inv in H as (y_max & st1 & Hmax & H).
  apply lift_inv in Hmax as [_ ->].
  apply bind_inv in H as (y_min & st1 & Hmin & H).
  apply lift_inv in Hmin as [_ ->].
  apply bind_inv in H as ([] & st1 & Hdiff & H).
  apply raise_if_inv in Hdiff as [_ ->].
  apply bind_inv in H as (frames & st1 & Hn & H).
  apply lift_inv in Hn as [Hn ->].
  apply bind_inv in H as (r & st1 & Hloop & H).
  destruct r as [m'|]; [|discriminate H].
  unfold ret in H. inversion H; subst m' st1; clear H.
  apply py_key_inv in Hshift, Hstep.
  apply py_nth_inv in Hsx, Hsy, Hxo, Hyo, Hh, Hw, Hn.
  apply Z.ltb_ge in Hcheck.
  exists a, path, xc, yc, lf, shift, step, x_offset, y_offset, height, width,
    frames.
  repeat (split; [first [assumption | reflexivity]|]).
  split. { exists step_x, step_y. repeat split; try assumption; lia. }
  repeat (split; [assumption|]). exact Hloop.
Qed.

(** C2, what the code does. A call that returns, returns [mat_corrected]:
    one new array of two axes, the frame made last, of
    [height - 2 * crop] rows and [width - 2 * crop] columns (none where
    that is negative). It is never a stack of three axes. *)
Theorem correct_distortion_returns_one_frame
    (st st' : state) (data m : loc) (a : ndarray)
    (metadata_path : option string) (preview : gmap string (list Z))
    (center_from_left center_from_top : option Q)
    (polynomial_coeffs : option (list Q)) (crop : Z)
    (n height width : nat)
    (Hdata : heap st !! data = Some a)
    (Hshape : shape a = [n; height; width])
    (Hcrop : (0 <= crop)%Z)
    (Hcall : correct_distortion data metadata_path preview center_from_left
               center_from_top polynomial_coeffs crop st = (Ok m, st')) :
  heap st !! m = None
  /\ exists c,
       heap st' !! m = Some c
       /\ shape c = [Z.to_nat (Z.of_nat height - 2 * crop);
                     Z.to_nat (Z.of_nat width - 2 * crop)]
       /\ ndim c = 2%nat.
Proof.
  apply correct_distortion_inv in Hcall
    as (a' & path & xc & yc & lf & shift & step & xo & yo & h & w & frames
        & Ha & _ & _ & _ & _ & _ & _ & _ & Hn & Hh & Hw & Hloop).
  rewrite Hdata in Ha. inversion Ha; subst a'; clear Ha.
  unfold view_shape, ndim in Hn, Hh, Hw. rewrite Hshape in Hn, Hh, Hw.
  cbn in Hn, Hh, Hw. inversion Hn; inversion Hh; inversion Hw; subst.
  apply unwarp_loop_returned in Hloop as (_ & _ & Hret & _ & _).
  destruct (Hret m eq_refl) as [[? _]|[Hfresh (c & Hc & Hs)]]; [discriminate|].
  split; [exact Hfresh|]. exists c. split; [exact Hc|].
  unfold cropped_shape in Hs. rewrite !py_slice_crop in Hs by assumption.
  unfold ndim. rewrite Hs. split; reflexivity.
Qed.

(** ** The distortion correction: what the loop writes into the stack *)

Lemma unwarped_ext data a1 a yd xd height width crop j :
  expanded data = false ->
  shape a1 = shape a ->
  (forall idx, item a1 (j :: idx) = item a (j :: idx)) ->
  forall idx, item (unwarped data a1 yd xd height width crop j) idx
              = item (unwarped data a yd xd height width crop j) idx.
Proof.
  intros He Hs Hi idx.
  unfold unwarped, crop2d, map_coordinates, view_frame. rewrite He.
  destruct (py_slice height _ _), (py_slice width _ _). cbn [item].
  destruct idx as [|y [|x [|]]]; try reflexivity.
  unfold interp_linear. cbn [shape item]. rewrite Hs, !Hi. reflexivity.
Qed.

(** On a stack (a view that is the object itself) the loop replaces every
    frame it visits by the frame unwarped from the one that was there, and
    leaves the other frames; what it returns is the frame unwarped from
    the last one visited. *)
Lemma unwarp_loop_frames data yd xd height width crop :
  expanded data = false ->
  forall frames mc st r st' a,
    NoDup frames ->
    heap st !! base data = Some a ->
    unwarp_loop data yd xd height width crop frames mc st = (Ok r, st') ->
    exists a',
      heap st' !! base data = Some a'
      /\ shape a' = shape a
      /\ (forall j idx, In j frames ->
            item a' (j :: idx)
            = item (unwarped data a yd xd height width crop j)
                   (bcast_index (cropped_shape height width crop) idx))
      /\ (forall j idx, ~ In j frames -> item a' (j :: idx) = item a (j :: idx))
      /\ (forall m j, r = Some m -> last frames = Some j ->
            exists c,
              heap st' !! m = Some c
              /\ shape c = cropped_shape height width crop
              /\ forall idx,
                   item c idx
                   = item (unwarped data a yd xd height width crop j) idx).
Proof.
  intros He. induction frames as [|i frames IH]; intros mc st r st' a Hnd Ha H.
  - simpl in H. unfold ret in H. inversion H; subst.
    exists a. repeat split; auto; try (intros; contradiction).
    intros m j _ Hl. discriminate Hl.
  - simpl in H. apply bind_inv in H as (m & st1 & Hstep & H).
    apply unwarp_frame_inv in Hstep as (a0 & Ha0 & _ & Hm & _ & Hst1).
    rewrite Ha in Ha0. inversion Ha0; subst a0; clear Ha0.
    set (src := unwarped data a yd xd height width crop i) in *.
    set (a1 := with_frame data a i src) in *.
    assert (Hbase : m <> base data).
    { subst m. apply fresh_loc_ne with a. exact Ha. }
    assert (Ha1 : heap st1 !! base data = Some a1).
    { subst st1. cbn [heap]. apply lookup_insert_eq. }
    assert (Hitem1 : forall j idx,
              item a1 (j :: idx)
              = if (j =? i)%nat
                then item src (bcast_index (cropped_shape height width crop) idx)
                else item a (j :: idx)).
    { intros j idx. unfold a1, with_frame. cbn [item]. rewrite He.
      unfold src at 2. rewrite unwarped_shape. reflexivity. }
    apply NoDup_cons in Hnd as [Hnotin Hnd'].
    rewrite list_elem_of_In in Hnotin.
    pose proof H as Hloop.
    apply (IH _ _ _ _ a1 Hnd' Ha1) in H
      as (a' & Ha' & Hshape & Hin & Hout & Hlast).
    assert (Hext : forall j, j <> i -> forall idx,
              item (unwarped data a1 yd xd height width crop j) idx
              = item (unwarped data a yd xd height width crop j) idx).
    { intros j Hj. apply unwarped_ext; [exact He|reflexivity|].
      intros idx. rewrite Hitem1.
      destruct (j =? i)%nat eqn:E; [apply Nat.eqb_eq in E; contradiction|].
      reflexivity. }
    exists a'. split; [exact Ha'|]. split; [exact Hshape|].
    split; [|split].
    + intros j idx [<-|Hj].
      * rewrite Hout by assumption. rewrite Hitem1, Nat.eqb_refl. reflexivity.
      * rewrite Hin by assumption. apply Hext. intros ->. contradiction.
    + intros j idx Hj. rewrite Hout by (intros Hj'; apply Hj; now right).
      rewrite Hitem1.
      destruct (j =? i)%nat eqn:E; [|reflexivity].
      apply Nat.eqb_eq in E. subst j. exfalso. apply Hj. now left.
    + intros m' j Hr Hl. destruct frames as [|i2 frames].
      * simpl in Hl. inversion Hl; subst j.
        simpl in Hloop. unfold ret in Hloop.
        assert (Hrm : r = Some m /\ st' = st1) by (inversion Hloop; auto).
        destruct Hrm as [Hrm ->]. rewrite Hrm in Hr. inversion Hr; subst m'.
        exists src. split; [|split; [apply unwarped_shape|reflexivity]].
        rewrite Hst1. cbn [heap].
        rewrite lookup_insert_ne by congruence. apply lookup_insert_eq.
      * change (last (i :: i2 :: frames)) with (last (i2 :: frames)) in Hl.
        destruct (Hlast m' j Hr Hl) as (c & Hc & Hsc & Hic).
        exists c. split; [exact Hc|]. split; [exact Hsc|].
        intros idx. rewrite Hic. apply Hext.
        intros ->. apply Hnotin. apply last_Some_elem_of in Hl.
        now apply list_elem_of_In.
Qed.

(** ** The transforms and the objects of the caller *)

Lemma preserved_refl st : preserved st st.
Proof. intros l x H. exact H. Qed.

Lemma preserved_None st0 st l :
  preserved st0 st -> heap st !! l = None -> heap st0 !! l = None.
Proof.
  intros Hp Hl. destruct (heap st0 !! l) eqn:E; [|reflexivity].
  apply Hp in E. congruence.
Qed.

Lemma preserved_insert st0 st l x :
  preserved st0 st -> heap st0 !! l = None ->
  preserved st0 (set_heap (<[l := x]> (heap st)) st).
Proof.
  intros Hp Hl l' x' H'. cbn [set_heap heap].
  rewrite lookup_insert_ne by congruence. now apply Hp.
Qed.

Lemma alloc_preserved st0 st x l st' :
  alloc x st = (Ok l, st') -> preserved st0 st ->
  preserved st0 st' /\ heap st0 !! l = None /\ heap st' !! l = Some x.
Proof.
  unfold alloc. intros H Hp. inversion H; subst l st'; clear H.
  assert (Hl : heap st0 !! fresh (dom (heap st)) = None).
  { apply (preserved_None st0 st); [exact Hp|].
    apply not_elem_of_dom, is_fresh. }
  split; [now apply preserved_insert|]. split; [exact Hl|].
  cbn [set_heap heap]. apply lookup_insert_eq.
Qed.

Lemma setmask_preserved st0 st l p v u st' :
  setmask l p v st = (Ok u, st') -> heap st0 !! l = None ->
  preserved st0 st -> preserved st0 st'.
Proof.
  unfold setmask. intros H Hl Hp.
  apply bind_inv in H as (a & st1 & Hload & H).
  apply load_inv in Hload as [_ ->].
  unfold store in H. inversion H. now apply preserved_insert.
Qed.

Lemma normalize_cupy_preserves data flats darks gpu_id cutoff minus_log
    nonnegativity remove_nans st out st' :
  normalize_cupy data flats darks gpu_id cutoff minus_log nonnegativity
    remove_nans st = (Ok out, st') ->
  heap st !! out = None /\ preserved st st'.
Proof.
  unfold normalize_cupy. intros H.
  apply bind_inv in H as ([] & st1 & Hdev & H).
  assert (Hp : preserved st st1).
  { unfold use_device in Hdev. inversion Hdev. intros l x Hl. exact Hl. }
  clear Hdev.
  apply bind_inv in H as (dk & st2 & Hs & H).
  apply load_inv in Hs as [_ ->].
  apply bind_inv in H as (dm & st2 & Hs & H). apply lift_inv in Hs as [_ ->].
  apply bind_inv in H as (fl & st2 & Hs & H).
  apply load_inv in Hs as [_ ->].
  apply bind_inv in H as (fm & st2 & Hs & H). apply lift_inv in Hs as [_ ->].
  apply bind_inv in H as (d & st2 & Hs & H).
  apply load_inv in Hs as [_ ->].
  apply bind_inv in H as ([] & st2 & Hs & H).
  apply raise_if_inv in Hs as [_ ->].
  apply bind_inv in H as ([] & st2 & Hs & H).
  apply raise_if_inv in Hs as [_ ->].
  apply bind_inv in H as ([] & st2 & Hs & H).
  apply raise_if_inv in Hs as [_ ->].
  apply bind_inv in H as (denom0 & st2 & Hs & H).
  apply lift_inv in Hs as [_ ->].
  apply bind_inv in H as (denom & st2 & Hs & H).
  apply (alloc_preserved st) in Hs as (Hp2 & Hdenom & _); [|exact Hp].
  apply bind_inv in H as ([] & st3 & Hs & H).
  apply (setmask_preserved st) in Hs; [|exact Hdenom|exact Hp2].
  apply bind_inv in H as (dn & st4 & Hs' & H).
  apply load_inv in Hs' as [_ ->].
  apply bind_inv in H as (df & st4 & Hs' & H).
  apply lift_inv in Hs' as [_ ->].
  apply bind_inv in H as (q & st4 & Hs' & H).
  apply lift_inv in Hs' as [_ ->].
  apply bind_inv in H as (out1 & st4 & Hs' & H).
  apply (alloc_preserved st) in Hs' as (Hp4 & Hout1 & _); [|exact Hs].
  apply bind_inv in H as ([] & st5 & Hs' & H).
  apply (setmask_preserved st) in Hs'; [|exact Hout1|exact Hp4].
  apply bind_inv in H as (out2 & st6 & Hlog & H).
  assert (Hp6 : preserved st st6 /\ heap st !! out2 = None).
  { destruct minus_log.
    - apply bind_inv in Hlog as (a & st7 & Hl & Hlog).
      apply load_inv in Hl as [_ ->].
      apply (alloc_preserved st) in Hlog as (? & ? & _); auto.
    - unfold ret in Hlog. inversion Hlog; subst. auto. }
  destruct Hp6 as [Hp6 Hout2]. clear Hlog.
  apply bind_inv in H as ([] & st7 & Hnn & H).
  assert (Hp7 : preserved st st7).
  { destruct nonnegativity.
    - now apply (setmask_preserved st) in Hnn.
    - unfold ret in Hnn. inversion Hnn; subst. exact Hp6. }
  clear Hnn.
  apply bind_inv in H as ([] & st8 & Hrn & H).
  assert (Hp8 : preserved st st8).
  { destruct remove_nans.
    - now apply (setmask_preserved st) in Hrn.
    - unfold ret in Hrn. inversion Hrn; subst. exact Hp7. }
  unfold ret in H. inversion H; subst. auto.
Qed.

Lemma median_filter3d_preserves data kernel_size dif st out st' :
  median_filter3d data kernel_size dif st = (Ok out, st') ->
  heap st !! out = None /\ preserved st st'.
Proof.
  unfold median_filter3d, launch_median3d. intros H.
  apply bind_inv in H as (d & st1 & Hs & H). apply load_inv in Hs as [_ ->].
  apply bind_inv in H as ([] & st1 & Hs & H).
  apply raise_if_inv in Hs as [_ ->].
  apply bind_inv in H as ([] & st1 & Hs & H).
  assert (st1 = st) as ->.
  { destruct (ndim d =? 3)%nat; [now apply raise_if_inv in Hs|discriminate]. }
  clear Hs.
  apply bind_inv in H as ([] & st1 & Hs & H).
  apply raise_if_inv in Hs as [_ ->].
  apply bind_inv in H as (out' & st1 & Hs & H).
  apply (alloc_preserved st) in Hs as (Hp & Hout & _);
    [|apply preserved_refl].
  apply bind_inv in H as ([] & st2 & Hlaunch & H).
  unfold ret in H. inversion H; subst out' st2; clear H.
  split; [exact Hout|].
  apply bind_inv in Hlaunch as (d' & st2 & Hs & H).
  apply load_inv in Hs as [_ ->].
  apply bind_inv in H as (o & st2 & Hs & H).
  apply load_inv in Hs as [_ ->].
  apply bind_inv in H as ([] & st2 & Hs & H).
  unfold emit in Hs. inversion Hs; subst st2; clear Hs.
  unfold store, set_heap in H. cbn [heap files device trace] in H.
  inversion H. intros l x Hl. cbn [heap].
  rewrite lookup_insert_ne by congruence. now apply Hp.
Qed.

(** A returning call on a stack of [n] frames: the model came from the
    file; every frame of the stack has been replaced by the frame unwarped
    from it; the array returned is new and is the frame unwarped from the
    last one. *)
Lemma correct_distortion_stack data metadata_path preview center_from_left
    center_from_top polynomial_coeffs crop st m st' a n h w :
  correct_distortion data metadata_path preview center_from_left
    center_from_top polynomial_coeffs crop st = (Ok m, st') ->
  heap st !! data = Some a ->
  shape a = [n; h; w] ->
  exists path xc yc lf shift x_offset y_offset,
    metadata_path = Some path
    /\ _load_metadata_txt (Some path) st = (Ok (xc, yc, lf), st)
    /\ preview !! "starts"%string = Some shift
    /\ shift !! 1%nat = Some x_offset
    /\ shift !! 0%nat = Some y_offset
    /\ (0 < n)%nat
    /\ heap st !! m = None
    /\ (forall l x, l <> data -> heap st !! l = Some x ->
                    heap st' !! l = Some x)
    /\ let v := mk_view data false in
       let yd := yd_mat (xc - inject_Z x_offset) (yc - inject_Z y_offset)
                   lf h in
       let xd := xd_mat (xc - inject_Z x_offset) (yc - inject_Z y_offset)
                   lf w in
       (exists a',
          heap st' !! data = Some a'
          /\ shape a' = [n; h; w]
          /\ forall j idx, (j < n)%nat ->
               item a' (j :: idx)
               = item (unwarped v a yd xd h w crop j)
                      (bcast_index (cropped_shape h w crop) idx))
       /\ (exists c,
             heap st' !! m = Some c
             /\ shape c = cropped_shape h w crop
             /\ forall idx,
                  item c idx
                  = item (unwarped v a yd xd h w crop (n - 1)) idx).
Proof.
  intros Hcall Hdata Hshape.
  apply correct_distortion_inv in Hcall
    as (a0 & path & xc & yc & lf & shift & step & xo & yo & h0 & w0 & n0
        & Ha & Hpath & Hmeta & Hshift & _ & _ & Hxo & Hyo & Hn & Hh & Hw
        & Hloop).
  rewrite Hdata in Ha. inversion Ha; subst a0; clear Ha.
  unfold view_shape, ndim in Hn, Hh, Hw, Hloop.
  rewrite Hshape in Hn, Hh, Hw, Hloop.
  cbn in Hn, Hh, Hw. inversion Hn; inversion Hh; inversion Hw; subst n0 h0 w0.
  cbn [length Nat.eqb] in Hloop.
  exists path, xc, yc, lf, shift, xo, yo.
  repeat (split; [assumption|]).
  assert (Hpos : (0 < n)%nat).
  { destruct n; [|lia]. simpl in Hloop. discriminate Hloop. }
  split; [exact Hpos|].
  pose proof Hloop as Hloop'.
  apply unwarp_loop_returned in Hloop as (Hkeep & _ & Hret & _ & _).
  destruct (Hret m eq_refl) as [[? _]|[Hfresh _]]; [discriminate|].
  split; [exact Hfresh|]. split; [exact Hkeep|].
  apply (unwarp_loop_frames (mk_view data false) _ _ _ _ _ eq_refl
           _ _ _ _ _ a) in Hloop'
    as (a' & Ha' & Hsa' & Hin & _ & Hlast);
    [|apply NoDup_seq|exact Hdata].
  split.
  - exists a'. split; [exact Ha'|]. split; [now rewrite Hsa'|].
    intros j idx Hj. apply Hin. apply in_seq. lia.
  - apply (Hlast m (n - 1)%nat eq_refl).
    destruct n; [lia|]. rewrite seq_S, last_snoc. f_equal. lia.
Qed.

(** C3, as the code has it. [normalize_cupy] and [median_filter3d] leave
    every object of the caller as it was, the input among them, and what
    they return is a new object. [correct_distortion] also returns a new
    object, and leaves the objects other than its input as they were, but
    its input it overwrites: when it returns, each frame of the stack holds
    the frame unwarped from it (cropped, and spread again over the frame). *)
Theorem transforms_and_input :
  (forall st st' data flats darks gpu_id cutoff minus_log nonnegativity
          remove_nans out,
     normalize_cupy data flats darks gpu_id cutoff minus_log nonnegativity
       remove_nans st = (Ok out, st') ->
     heap st !! out = None
     /\ forall l x, heap st !! l = Some x -> heap st' !! l = Some x)
  /\ (forall st st' data kernel_size dif out,
        median_filter3d data kernel_size dif st = (Ok out, st') ->
        heap st !! out = None
        /\ forall l x, heap st !! l = Some x -> heap st' !! l = Some x)
  /\ (forall st st' data metadata_path preview center_from_left
             center_from_top polynomial_coeffs crop out a n h w,
        correct_distortion data metadata_path preview center_from_left
          center_from_top polynomial_coeffs crop st = (Ok out, st') ->
        heap st !! data = Some a ->
        shape a = [n; h; w] ->
        heap st !! out = None
        /\ (forall l x, l <> data -> heap st !! l = Some x ->
                        heap st' !! l = Some x)
        /\ exists path xc yc lf shift x_offset y_offset a',
             _load_metadata_txt (Some path) st = (Ok (xc, yc, lf), st)
             /\ metadata_path = Some path
             /\ preview !! "starts"%string = Some shift
             /\ shift !! 1%nat = Some x_offset
             /\ shift !! 0%nat = Some y_offset
             /\ heap st' !! data = Some a'
             /\ shape a' = shape a
             /\ forall j idx, (j < n)%nat ->
                  item a' (j :: idx)
                  = item (unwarped (mk_view data false) a
                            (yd_mat (xc - inject_Z x_offset)
                                    (yc - inject_Z y_offset) lf h)
                            (xd_mat (xc - inject_Z x_offset)
                                    (yc - inject_Z y_offset) lf w)
                            h w crop j)
                         (bcast_index (cropped_shape h w crop) idx)).
Proof.
  split; [|split].
  - intros. eapply normalize_cupy_preserves. eassumption.
  - intros. eapply median_filter3d_preserves. eassumption.
  - intros st st' data metadata_path preview cl ct pc crop out a n h w
      Hcall Hdata Hshape.
    destruct (correct_distortion_stack _ _ _ _ _ _ _ _ _ _ _ _ _ _
                Hcall Hdata Hshape)
      as (path & xc & yc & lf & shift & xo & yo & Hpath & Hmeta & Hshift
          & Hxo & Hyo & _ & Hfresh & Hkeep & (a' & Ha' & Hsa' & Hitems) & _).
    split; [exact Hfresh|]. split; [exact Hkeep|].
    exists path, xc, yc, lf, shift, xo, yo, a'.
    repeat (split; [assumption|]).
    split; [congruence|]. exact Hitems.
Qed.

(** ** The distortion correction with the coefficients 1, 0, 0, ... *)

Lemma Qsum_zero_factors (pw : nat -> Q) (l : list Q) :
  Forall (fun c => c == 0)%Q l ->
  (Qsum (imap (fun i c => c * pw i) l) == 0)%Q.
Proof.
  intros Hl. revert pw. induction Hl as [|c l Hc _ IH]; intros pw.
  - reflexivity.
  - rewrite imap_cons. unfold Qsum. cbn [foldr]. fold (Qsum (imap ((fun i c => c * pw i)%Q ∘ S) l)).
    pose proof (IH (fun i => pw (S i))) as IH'.
    unfold compose. cbv beta in IH' |- *.
    rewrite IH', Hc. ring.
Qed.

Lemma fact_mat_identity (xc yc c0 : Q) (rest : list Q) (y x : nat) :
  (c0 == 1)%Q -> Forall (fun c => c == 0)%Q rest ->
  (fact_mat xc yc (c0 :: rest) y x == 1)%Q.
Proof.
  intros H0 Hrest. unfold fact_mat.
  rewrite imap_cons. unfold Qsum. cbn [foldr].
  pose proof (Qsum_zero_factors
                (fun i => ru_mat xc yc y x ^ Z.of_nat (S i))%Q rest Hrest) as Hz.
  unfold Qsum in Hz. unfold compose. cbv beta in Hz |- *.
  rewrite Hz, H0. simpl Z.of_nat. simpl Qpower. ring.
Qed.

Lemma clip_inside (v lo hi : Q) :
  (lo <= v)%Q -> (v <= hi)%Q -> (clip v lo hi == v)%Q.
Proof.
  intros Hlo Hhi. unfold clip.
  destruct (Q.max_spec v lo) as [[H1 E1]|[H1 E1]];
    destruct (Q.min_spec (Qmax v lo) hi) as [[H2 E2]|[H2 E2]];
    rewrite E2; try rewrite E1; lra.
Qed.

Lemma Qnat_bounds (i n : nat) :
  (i < n)%nat -> (0 <= Qnat i)%Q /\ (Qnat i <= inject_Z (Z.of_nat n - 1))%Q.
Proof.
  intros H. unfold Qnat. split.
  - change 0%Q with (inject_Z 0). rewrite <- Zle_Qle. lia.
  - rewrite <- Zle_Qle. lia.
Qed.

(** With these coefficients the sampling map is the identity, whatever the
    centre. *)
Lemma sampling_map_identity (xc yc c0 : Q) (rest : list Q)
    (height width y x : nat) :
  (c0 == 1)%Q -> Forall (fun c => c == 0)%Q rest ->
  (y < height)%nat -> (x < width)%nat ->
  (yd_mat xc yc (c0 :: rest) height y x == Qnat y)%Q
  /\ (xd_mat xc yc (c0 :: rest) width y x == Qnat x)%Q.
Proof.
  intros H0 Hrest Hy Hx.
  pose proof (fact_mat_identity xc yc c0 rest y x H0 Hrest) as Hf.
  destruct (Qnat_bounds y height Hy) as [Hy0 Hy1].
  destruct (Qnat_bounds x width Hx) as [Hx0 Hx1].
  unfold yd_mat, xd_mat, yu_mat, xu_mat. split.
  - assert (Hv : (yc + fact_mat xc yc (c0 :: rest) y x * (Qnat y - yc)
                  == Qnat y)%Q) by (rewrite Hf; ring).
    rewrite clip_inside; rewrite Hv; auto; reflexivity.
  - assert (Hv : (xc + fact_mat xc yc (c0 :: rest) y x * (Qnat x - xc)
                  == Qnat x)%Q) by (rewrite Hf; ring).
    rewrite clip_inside; rewrite Hv; auto; reflexivity.
Qed.

Lemma reflect_index_inside (n i : nat) :
  (i < n)%nat -> reflect_index n (Z.of_nat i) = i.
Proof.
  intros H. unfold reflect_index.
  rewrite Z.mod_small by lia.
  destruct (Z.of_nat i <? Z.of_nat n)%Z eqn:E;
    [apply Nat2Z.id | apply Z.ltb_ge in E; lia].
Qed.

(** Linear interpolation at a pixel gives the pixel. *)
Lemma interp_linear_at_pixel (input : ndarray) (h w y x : nat) (yc xc : Q) :
  shape input = [h; w] -> (y < h)%nat -> (x < w)%nat ->
  (yc == Qnat y)%Q -> (xc == Qnat x)%Q ->
  (interp_linear input yc xc == item input [y; x])%Q.
Proof.
  intros Hs Hy Hx Eyc Exc. unfold interp_linear. rewrite Hs. cbn [nth].
  rewrite (Qfloor_comp _ _ Eyc), (Qfloor_comp _ _ Exc).
  assert (Hfloor : forall i, Qfloor (Qnat i) = Z.of_nat i)
    by (intros; apply Qfloor_Z).
  rewrite !Hfloor.
  rewrite !reflect_index_inside by assumption.
  fold (Qnat y) (Qnat x).
  assert (Ey : (yc - Qnat y == 0)%Q) by (rewrite Eyc; ring).
  assert (Ex : (xc - Qnat x == 0)%Q) by (rewrite Exc; ring).
  rewrite Ey, Ex. ring.
Qed.

Lemma py_slice_inside (n : nat) (crop : Z) :
  (0 <= crop)%Z -> (2 * crop <= Z.of_nat n)%Z ->
  py_slice n crop (Z.of_nat n - crop)
  = (Z.to_nat crop, Z.to_nat (Z.of_nat n - 2 * crop)).
Proof.
  intros H0 H2. unfold py_slice.
  destruct (crop <? 0)%Z eqn:E1; [apply Z.ltb_lt in E1; lia|].
  destruct (Z.of_nat n - crop <? 0)%Z eqn:E2; [apply Z.ltb_lt in E2; lia|].
  f_equal; lia.
Qed.

(** Unwarping a frame of a stack through the identity map crops it. *)
Lemma unwarped_identity (data : loc) (a : ndarray) (n h w j y x : nat)
    (crop : Z) (yd xd : nat -> nat -> Q) :
  shape a = [n; h; w] ->
  (forall y x, (y < h)%nat -> (x < w)%nat ->
               (yd y x == Qnat y)%Q /\ (xd y x == Qnat x)%Q) ->
  (0 <= crop)%Z -> (2 * crop <= Z.of_nat h)%Z -> (2 * crop <= Z.of_nat w)%Z ->
  (y < Z.to_nat (Z.of_nat h - 2 * crop))%nat ->
  (x < Z.to_nat (Z.of_nat w - 2 * crop))%nat ->
  (item (unwarped (mk_view data false) a yd xd h w crop j) [y; x]
   == item a [j; Z.to_nat crop + y; Z.to_nat crop + x]%nat)%Q.
Proof.
  intros Hs Hid H0 Hh Hw Hy Hx.
  unfold unwarped, crop2d. rewrite !py_slice_inside by assumption.
  cbn [item map_coordinates].
  destruct (Hid (Z.to_nat crop + y) (Z.to_nat crop + x))%nat as [Ey Ex];
    [lia|lia|].
  rewrite (interp_linear_at_pixel _ h w (Z.to_nat crop + y)
             (Z.to_nat crop + x)); try assumption; try lia.
  - reflexivity.
  - unfold view_frame. cbn [expanded shape]. now rewrite Hs.
Qed.

(** C8, what the code does. With a first coefficient 1 and all others 0 the
    sampling map is the identity for every centre, and each frame is
    unwarped to its own centre crop. But the call returns one frame only: on
    a stack of [n] frames, what is returned is the centre crop of the last
    frame, frame [n - 1], an array of two axes. *)
Theorem correct_distortion_identity_last_frame
    (st st' : state) (data out : loc) (a : ndarray) (path : string)
    (preview : gmap string (list Z))
    (center_from_left center_from_top : option Q)
    (polynomial_coeffs : option (list Q)) (crop : Z) (n h w : nat)
    (xc yc c0 : Q) (rest : list Q)
    (Hdata : heap st !! data = Some a)
    (Hshape : shape a = [n; h; w])
    (Hmeta : _load_metadata_txt (Some path) st = (Ok (xc, yc, c0 :: rest), st))
    (Hone : (c0 == 1)%Q)
    (Hzero : Forall (fun c => c == 0)%Q rest)
    (Hcrop : (0 <= crop)%Z)
    (Hh : (2 * crop <= Z.of_nat h)%Z)
    (Hw : (2 * crop <= Z.of_nat w)%Z)
    (Hcall : correct_distortion data (Some path) preview center_from_left
               center_from_top polynomial_coeffs crop st = (Ok out, st')) :
  (forall cx cy y x, (y < h)%nat -> (x < w)%nat ->
     (yd_mat cx cy (c0 :: rest) h y x == Qnat y)%Q
     /\ (xd_mat cx cy (c0 :: rest) w y x == Qnat x)%Q)
  /\ exists c,
       heap st' !! out = Some c
       /\ shape c = [Z.to_nat (Z.of_nat h - 2 * crop);
                     Z.to_nat (Z.of_nat w - 2 * crop)]
       /\ forall y x,
            (y < Z.to_nat (Z.of_nat h - 2 * crop))%nat ->
            (x < Z.to_nat (Z.of_nat w - 2 * crop))%nat ->
            (item c [y; x]
             == item a [n - 1; Z.to_nat crop + y; Z.to_nat crop + x]%nat)%Q.
Proof.
  split.
  { intros cx cy y x Hy Hx. now apply sampling_map_identity. }
  destruct (correct_distortion_stack _ _ _ _ _ _ _ _ _ _ _ _ _ _
              Hcall Hdata Hshape)
    as (path' & xc' & yc' & lf' & shift & xo & yo & Hpath & Hmeta' & _
        & _ & _ & _ & _ & _ & _ & (c & Hc & Hsc & Hitems)).
  inversion Hpath; subst path'. rewrite Hmeta in Hmeta'.
  inversion Hmeta'; subst xc' yc' lf'. clear Hmeta' Hpath.
  exists c. split; [exact Hc|]. split.
  - rewrite Hsc. unfold cropped_shape. now rewrite !py_slice_crop.
  - intros y x Hy Hx. rewrite Hitems.
    apply (unwarped_identity data a n); try assumption.
    intros y' x' Hy' Hx'. now apply sampling_map_identity.
Qed.

(** * Further properties of the code *)

(** ** How a computation fails *)

Lemma bind_Raise_inv {A B} (m : M A) (k : A -> M B) st e st2 :
  (x ← m; k x) st = (Raise e, st2) ->
  m st = (Raise e, st2)
  \/ exists a st1, m st = (Ok a, st1) /\ k a st1 = (Raise e, st2).
Proof.
  run. destruct (m st) as [[a|e'] st1]; intros H.
  - right. now exists a, st1.
  - left. inversion H. reflexivity.
Qed.

Lemma load_Raise l st e st1 : load l st = (Raise e, st1) -> heap st !! l = None.
Proof. unfold load. destruct (heap st !! l); intros H; now inversion H. Qed.

Lemma lift_Raise {A} (r : result A) st e st1 :
  lift r st = (Raise e, st1) -> r = Raise e.
Proof. unfold lift. intros H. now inversion H. Qed.

Lemma raise_if_Raise c e0 st e st1 :
  raise_if c e0 st = (Raise e, st1) -> c = true /\ e = e0.
Proof.
  unfold raise_if. destruct c; run; intros H; inversion H; auto.
Qed.

Lemma py_nth_Raise {A} (l : list A) i e :
  py_nth l i = Raise e -> e = IndexError /\ l !! i = None.
Proof.
  unfold py_nth. destruct (l !! i); intros H; inversion H; auto.
Qed.

Lemma py_key_Raise {A} (d : gmap string A) k e :
  py_key d k = Raise e -> e = KeyError.
Proof. unfold py_key. destruct (d !! k); intros H; now inversion H. Qed.

(** ** The distortion correction: arguments that are never used *)

(** Whatever centre and coefficients a call is given as arguments, it does
    the same: without a file it ends in the [TypeError] of line 61 before
    they are looked at, and with a file they are not looked at at all. *)
Theorem correct_distortion_ignores_explicit_model
    (data : loc) (metadata_path : option string)
    (preview : gmap string (list Z))
    (center_from_left center_from_top center_from_left' center_from_top'
       : option Q)
    (polynomial_coeffs polynomial_coeffs' : option (list Q)) (crop : Z)
    (st : state) :
  correct_distortion data metadata_path preview center_from_left
    center_from_top polynomial_coeffs crop st
  = correct_distortion data metadata_path preview center_from_left'
      center_from_top' polynomial_coeffs' crop st.
Proof.
  unfold correct_distortion. destruct metadata_path as [path|];
    [reflexivity|].
  destruct (load data st) as [[d|e] st1] eqn:Hload.
  - transitivity (@Raise loc TypeError, st1); [|symmetry];
      (erewrite bind_Ok by exact Hload;
       erewrite bind_Raise by apply load_metadata_txt_None; reflexivity).
  - transitivity (@Raise loc e, st1); [|symmetry];
      (erewrite bind_Raise by exact Hload; reflexivity).
Qed.

(** ** The coefficient file: what is read, and how reading fails *)

Lemma parse_line_Ok_inv line v :
  parse_line line = Ok v -> line_value line = Some v.
Proof.
  unfold parse_line, line_value.
  destruct (last (split line)) as [token|]; [|discriminate].
  destruct (py_float token); intros H; now inversion H.
Qed.

Lemma parse_line_Raise_inv line e :
  parse_line line = Raise e ->
  (last (split line) = None /\ e = IndexError)
  \/ (exists token, last (split line) = Some token
                    /\ py_float token = None /\ e = ValueError MsgFloat).
Proof.
  unfold parse_line.
  destruct (last (split line)) as [token|].
  - destruct (py_float token) eqn:E; intros H; inversion H.
    right. now exists token.
  - intros H. inversion H. now left.
Qed.

Lemma parse_lines_Ok_inv lines :
  forall list_data l,
    parse_lines lines list_data = Ok l ->
    exists values,
      l = list_data ++ values
      /\ Forall2 (fun line v => line_value line = Some v) lines values.
Proof.
  induction lines as [|line lines IH]; intros list_data l H; simpl in H.
  - inversion H. exists []. split; [now rewrite app_nil_r|constructor].
  - destruct (parse_line line) as [v|e] eqn:E; [|discriminate].
    apply IH in H as (values & -> & Hv).
    exists (v :: values). split; [now rewrite <- app_assoc|].
    constructor; [now apply parse_line_Ok_inv|exact Hv].
Qed.

Lemma parse_lines_Raise_inv lines :
  forall list_data e,
    parse_lines lines list_data = Raise e ->
    exists good bad rest values,
      lines = good ++ bad :: rest
      /\ Forall2 (fun line v => line_value line = Some v) good values
      /\ parse_line bad = Raise e.
Proof.
  induction lines as [|line lines IH]; intros list_data e H; simpl in H.
  - discriminate.
  - destruct (parse_line line) as [v|e'] eqn:E.
    + apply IH in H as (good & bad & rest & values & -> & Hv & Hbad).
      exists (line :: good), bad, rest, (v :: values).
      split; [reflexivity|]. split; [|exact Hbad].
      constructor; [now apply parse_line_Ok_inv|exact Hv].
    + inversion H; subst e'.
      exists [], line, lines, []. repeat split; [constructor|exact E].
Qed.

(** When the loader returns, the file had at least two lines, every line of
    it had a value, and what is returned are these values, line by line:
    no line is skipped and none is read in part. The store is as it was. *)
Theorem load_metadata_txt_returned
    (st st' : state) (file_path : option string) (xcenter ycenter : Q)
    (list_fact : list Q)
    (Hreturn : _load_metadata_txt file_path st
               = (Ok (xcenter, ycenter, list_fact), st')) :
  st' = st
  /\ exists path content,
       file_path = Some path
       /\ files st !! path = Some content
       /\ Forall2 (fun line v => line_value line = Some v)
            (splitlines content) (xcenter :: ycenter :: list_fact).
Proof.
  pose proof (load_metadata_txt_state file_path st) as Hst.
  rewrite Hreturn in Hst. simpl in Hst. split; [exact Hst|]. subst st'.
  unfold _load_metadata_txt in Hreturn.
  apply bind_inv in Hreturn as (content & st1 & Hopen & H).
  unfold open_read in Hopen.
  destruct file_path as [path|]; [|discriminate].
  destruct (files st !! path) as [content'|] eqn:Hfile; [|discriminate].
  inversion Hopen; subst content' st1; clear Hopen.
  apply bind_inv in H as (list_data & st1 & Hparse & H).
  apply lift_inv in Hparse as [Hparse ->].
  apply bind_inv in H as (xc & st1 & Hx & H).
  apply lift_inv in Hx as [Hx ->].
  apply bind_inv in H as (yc & st1 & Hy & H).
  apply lift_inv in Hy as [Hy ->].
  unfold ret in H. inversion H; subst xc yc list_fact; clear H.
  apply parse_lines_Ok_inv in Hparse as (values & -> & Hvalues).
  apply py_nth_inv in Hx, Hy. simpl in Hx, Hy.
  exists path, content. repeat split; try assumption.
  destruct values as [|v0 [|v1 values]]; try discriminate.
  simpl in Hx, Hy. inversion Hx; inversion Hy; subst. exact Hvalues.
Qed.

(** How reading fails on a file that [open] and [read] have given as the
    text [content]: the store is as it was, and the first line without a
    value decides, with [IndexError] if it has no token at all (a blank
    line) and [ValueError] if [float] does not read its last token;
    otherwise every line has a value, there are fewer than two of them, and
    the exception is [IndexError]. *)
Theorem load_metadata_txt_raised
    (st st' : state) (path content : string) (e : exn)
    (Hfile : files st !! path = Some content)
    (Hraise : _load_metadata_txt (Some path) st = (Raise e, st')) :
  st' = st
  /\ ((exists good bad rest values,
         splitlines content = good ++ bad :: rest
         /\ Forall2 (fun line v => line_value line = Some v) good values
         /\ ((last (split bad) = None /\ e = IndexError)
             \/ (exists token, last (split bad) = Some token
                               /\ py_float token = None
                               /\ e = ValueError MsgFloat)))
      \/ (exists values,
            Forall2 (fun line v => line_value line = Some v)
              (splitlines content) values
            /\ (length (splitlines content) < 2)%nat
            /\ e = IndexError)).
Proof.
  pose proof (load_metadata_txt_state (Some path) st) as Hst.
  rewrite Hraise in Hst. simpl in Hst. split; [exact Hst|]. subst st'.
  unfold _load_metadata_txt in Hraise.
  apply bind_Raise_inv in Hraise as [H|(content' & st1 & Hopen & H)].
  - unfold open_read in H. rewrite Hfile in H. discriminate H.
  - unfold open_read in Hopen. rewrite Hfile in Hopen.
    inversion Hopen; subst content' st1; clear Hopen.
    apply bind_Raise_inv in H as [H|(list_data & st1 & Hparse & H)].
    + apply lift_Raise in H.
      apply parse_lines_Raise_inv in H
        as (good & bad & rest & values & Hlines & Hv & Hbad).
      left. exists good, bad, rest, values.
      repeat (split; [first [reflexivity|assumption]|]).
      now apply parse_line_Raise_inv.
    + apply lift_inv in Hparse as [Hparse ->].
      apply parse_lines_Ok_inv in Hparse as (values & -> & Hvalues).
      pose proof (Forall2_length _ _ _ Hvalues) as Hlen.
      right. exists values.
      repeat (split; [first [reflexivity|assumption]|]).
      simpl in H.
      apply bind_Raise_inv in H as [H|(xc & st1 & Hx & H)].
      * apply lift_Raise, py_nth_Raise in H as [-> Hnone].
        apply lookup_ge_None in Hnone. split; [lia|reflexivity].
      * apply bind_Raise_inv in H as [H|(yc & st2 & Hy & H)].
        -- apply lift_Raise, py_nth_Raise in H as [-> Hnone].
           apply lookup_ge_None in Hnone. split; [lia|reflexivity].
        -- discriminate H.
Qed.

Lemma append_cons (c : ascii) (s t : string) :
  String c s +:+ t = String c (s +:+ t).
Proof. reflexivity. Qed.

Lemma append_empty (s : string) : s +:+ EmptyString = s.
Proof.
  induction s as [|c s IH]; [reflexivity|].
  now rewrite append_cons, IH.
Qed.

Lemma append_snoc (s t : string) (c : ascii) :
  s +:+ String c t = (s +:+ String c EmptyString) +:+ t.
Proof.
  induction s as [|a s IH]; [reflexivity|].
  now rewrite !append_cons, IH.
Qed.

Lemma split_from_token (token : string) :
  string_forall (fun c => negb (is_space c)) token = true ->
  forall cur, is_empty (cur +:+ token) = false ->
              split_from cur token = [cur +:+ token].
Proof.
  induction token as [|c token IH]; intros Hall cur Hne.
  - rewrite append_empty in *. cbn [split_from]. now rewrite Hne.
  - cbn [string_forall] in Hall.
    apply andb_true_iff in Hall as [Hc Hall].
    apply negb_true_iff in Hc. cbn [split_from]. rewrite Hc.
    rewrite (append_snoc cur token c) in Hne |- *. now apply IH.
Qed.

Lemma split_from_last_token (sep : ascii) (token : string) :
  is_space sep = true -> is_token token = true ->
  forall label cur,
    last (split_from cur (label +:+ String sep token)) = Some token.
Proof.
  intros Hsep Htok. unfold is_token in Htok.
  apply andb_true_iff in Htok as [Hne Hall]. apply negb_true_iff in Hne.
  assert (Htoken : split_from EmptyString token = [token])
    by (apply split_from_token; assumption).
  induction label as [|c label IH]; intros cur.
  - change (EmptyString +:+ String sep token) with (String sep token).
    cbn [split_from]. rewrite Hsep, Htoken. now destruct (is_empty cur).
  - rewrite append_cons. cbn [split_from]. destruct (is_space c).
    + specialize (IH EmptyString).
      destruct (is_empty cur); [exact IH|].
      destruct (split_from EmptyString (label +:+ String sep token));
        [discriminate IH|exact IH].
    + apply IH.
Qed.

(** On a line, what stands before the last token does not count: a line
    made of any label, one whitespace character and a token has the value
    of the token alone. *)
Theorem line_value_ignores_label
    (label token : string) (sep : ascii)
    (Hsep : is_space sep = true)
    (Htoken : is_token token = true) :
  line_value (label +:+ String sep token) = py_float token.
Proof.
  unfold line_value, split.
  now rewrite (split_from_last_token sep token Hsep Htoken).
Qed.

(** ** The distortion correction: how it fails *)

Lemma unwarp_frame_Ok data yd xd height width crop i st a :
  heap st !! base data = Some a ->
  frame_fits data a height width crop ->
  unwarp_frame data yd xd height width crop i st
  = (Ok (fresh (dom (heap st))),
     mk_state
       (<[base data := with_frame data a i
                         (unwarped data a yd xd height width crop i)]>
          (<[fresh (dom (heap st))
             := unwarped data a yd xd height width crop i]> (heap st)))
       (files st) (device st) (trace st ++ [Resample i])).
Proof.
  intros Ha [Hrank Hfit]. unfold unwarp_frame.
  ok (apply load_Some; exact Ha).
  ok reflexivity.
  rewrite Hrank. cbn [Nat.eqb negb].
  ok reflexivity.
  ok reflexivity.
  ok (apply load_Some; cbn [heap set_heap]; apply lookup_insert_eq).
  fold (unwarped data a yd xd height width crop i).
  unfold view_assign.
  ok (ok (apply load_Some; cbn [heap set_heap];
          rewrite lookup_insert_ne by (eapply fresh_loc_ne; exact Ha);
          exact Ha);
      rewrite unwarped_shape, bool_decide_eq_true_2 by exact Hfit;
      reflexivity).
  reflexivity.
Qed.

Lemma raise_if_Raise_state c e0 st e st1 :
  raise_if c e0 st = (Raise e, st1) -> st1 = st.
Proof.
  unfold raise_if. destruct c; run; intros H; now inversion H.
Qed.

Lemma unwarp_frame_Raise data yd xd height width crop i st a e st' :
  heap st !! base data = Some a ->
  unwarp_frame data yd xd height width crop i st = (Raise e, st') ->
  ~ frame_fits data a height width crop
  /\ (e = RuntimeError \/ e = ValueError MsgBroadcast)
  /\ preserved st st'.
Proof.
  intros Ha H. unfold unwarp_frame in H.
  apply bind_Raise_inv in H as [H|(a0 & st1 & Hload & H)].
  { apply load_Raise in H. congruence. }
  apply load_inv in Hload as [Ha0 ->].
  rewrite Ha in Ha0. inversion Ha0; subst a0; clear Ha0.
  apply bind_Raise_inv in H as [H|([] & st1 & Hemit & H)];
    [discriminate H|].
  unfold emit in Hemit. inversion Hemit; subst st1; clear Hemit.
  apply bind_Raise_inv in H as [H|([] & st1 & Hrank & H)].
  { pose proof (raise_if_Raise_state _ _ _ _ _ H) as ->.
    apply raise_if_Raise in H as [Hrank ->].
    split; [|split; [now left|]].
    - intros [Hr _]. rewrite Hr in Hrank. discriminate.
    - intros l x Hl. exact Hl. }
  apply raise_if_inv in Hrank as [Hrank ->].
  apply bind_Raise_inv in H as [H|(m & st1 & Halloc & H)];
    [discriminate H|].
  unfold alloc in Halloc. cbn [heap] in Halloc.
  inversion Halloc; subst m st1; clear Halloc.
  apply bind_Raise_inv in H as [H|(src & st1 & Hsrc & H)].
  { apply load_Raise in H. unfold set_heap in H. cbn [heap] in H.
    rewrite lookup_insert_eq in H. discriminate. }
  apply load_inv in Hsrc as [Hsrc ->].
  unfold set_heap in Hsrc. cbn [heap] in Hsrc.
  rewrite lookup_insert_eq in Hsrc. inversion Hsrc; subst src; clear Hsrc.
  fold (unwarped data a yd xd height width crop i) in H.
  apply bind_Raise_inv in H as [H|([] & st1 & _ & H)];
    [|discriminate H].
  unfold view_assign in H.
  apply bind_Raise_inv in H as [H|(a1 & st1 & Hload & H)].
  { apply load_Raise in H. unfold set_heap in H. cbn [heap] in H.
    rewrite lookup_insert_ne in H by (eapply fresh_loc_ne; exact Ha).
    congruence. }
  apply load_inv in Hload as [Ha1 ->].
  unfold set_heap in Ha1. cbn [heap] in Ha1.
  rewrite lookup_insert_ne in Ha1 by (eapply fresh_loc_ne; exact Ha).
  rewrite Ha in Ha1. inversion Ha1; subst a1; clear Ha1.
  rewrite unwarped_shape in H.
  destruct (bool_decide _) eqn:Eb in H; [discriminate H|].
  apply bool_decide_eq_false in Eb.
  unfold raise in H. inversion H; subst e st'; clear H.
  split; [|split; [now right|]].
  - intros [_ Hfit]. contradiction.
  - intros l x Hl. unfold set_heap. cbn [heap].
    rewrite lookup_insert_ne; [exact Hl|].
    intros E. pose proof (is_fresh (dom (heap st))) as Hf.
    rewrite E in Hf. apply Hf, elem_of_dom. eauto.
Qed.

Lemma with_frame_fits data a i src height width crop :
  frame_fits data a height width crop ->
  frame_fits data (with_frame data a i src) height width crop.
Proof. intros H. exact H. Qed.

(** Once one frame has been unwarped, every frame can be. *)
Lemma unwarp_loop_Ok data yd xd height width crop frames :
  forall mc st a,
    heap st !! base data = Some a ->
    frame_fits data a height width crop ->
    exists r st', unwarp_loop data yd xd height width crop frames mc st
                  = (Ok r, st').
Proof.
  induction frames as [|i frames IH]; intros mc st a Ha Hfit.
  - exists mc, st. reflexivity.
  - cbn [unwarp_loop].
    erewrite bind_Ok by (eapply unwarp_frame_Ok; eassumption).
    eapply IH.
    + cbn [heap]. apply lookup_insert_eq.
    + apply with_frame_fits. exact Hfit.
Qed.

(** When the loop raises, it does at its first frame, before anything has
    been written to the stack. *)
Lemma unwarp_loop_Raise data yd xd height width crop frames mc st a e st' :
  heap st !! base data = Some a ->
  unwarp_loop data yd xd height width crop frames mc st = (Raise e, st') ->
  (e = RuntimeError \/ e = ValueError MsgBroadcast) /\ preserved st st'.
Proof.
  intros Ha H. destruct frames as [|i frames]; [discriminate H|].
  cbn [unwarp_loop] in H.
  apply bind_Raise_inv in H as [H|(m & st1 & Hstep & H)].
  - apply (unwarp_frame_Raise _ _ _ _ _ _ _ _ a) in H as (_ & He & Hp);
      auto.
  - exfalso.
    apply unwarp_frame_inv in Hstep
      as (a0 & Ha0 & Hrank & _ & Hfit & Hst1).
    destruct (unwarp_loop_Ok data yd xd height width crop frames (Some m)
                st1 (with_frame data a0 i
                       (unwarped data a0 yd xd height width crop i)))
      as (r & st2 & Hok).
    + subst st1. cbn [heap]. apply lookup_insert_eq.
    + split; [exact Hrank|]. rewrite unwarped_shape in Hfit. exact Hfit.
    + rewrite Hok in H. discriminate H.
Qed.


(** Finds an exception in a list of exceptions. *)
Ltac in_list := simpl; repeat (first [left; reflexivity | right]).

Lemma lift_Raise_state {A} (r : result A) st e st1 :
  lift r st = (Raise e, st1) -> st1 = st.
Proof. unfold lift. intros H. now inversion H. Qed.

Lemma parse_lines_exn lines :
  forall list_data e,
    parse_lines lines list_data = Raise e ->
    e = IndexError \/ e = ValueError MsgFloat.
Proof.
  induction lines as [|line lines IH]; intros list_data e H; simpl in H.
  - discriminate.
  - destruct (parse_line line) as [v|e'] eqn:E; [now apply IH in H|].
    inversion H; subst e'.
    apply parse_line_Raise_inv in E as [[_ ->]|(token & _ & _ & ->)]; auto.
Qed.

Lemma load_metadata_txt_exn file_path st e st' :
  _load_metadata_txt file_path st = (Raise e, st') ->
  (forall path, file_path = Some path -> files st !! path = None)
  \/ e = IndexError \/ e = ValueError MsgFloat.
Proof.
  unfold _load_metadata_txt. intros H.
  apply bind_Raise_inv in H as [H|(content & st1 & _ & H)].
  - left. intros path ->. unfold open_read in H.
    destruct (files st !! path); [discriminate H|reflexivity].
  - apply bind_Raise_inv in H as [H|(list_data & st2 & _ & H)].
    + apply lift_Raise, parse_lines_exn in H as [->| ->]; auto.
    + apply bind_Raise_inv in H as [H|(xc & st3 & _ & H)].
      * apply lift_Raise, py_nth_Raise in H as [-> _]. auto.
      * apply bind_Raise_inv in H as [H|(yc & st4 & _ & H)].
        -- apply lift_Raise, py_nth_Raise in H as [-> _]. auto.
        -- discriminate H.
Qed.

(** The exceptions of [correct_distortion] on an array, when the path is
    not one that [open] fails on. *)
Lemma correct_distortion_exn
    (st st' : state) (data : loc) (a : ndarray)
    (metadata_path : option string) (preview : gmap string (list Z))
    (center_from_left center_from_top : option Q)
    (polynomial_coeffs : option (list Q)) (crop : Z) (e : exn)
    (Hdata : heap st !! data = Some a)
    (Hraise : correct_distortion data metadata_path preview center_from_left
                center_from_top polynomial_coeffs crop st = (Raise e, st')) :
  (In e [IndexError; KeyError; RuntimeError; UnboundLocalError;
         ValueError MsgFloat; ValueError MsgStep;
         ValueError MsgEmptyReduction; ValueError MsgPreviewSize;
         ValueError MsgBroadcast]
   \/ forall path, metadata_path = Some path -> files st !! path = None)
  /\ (forall l x, heap st !! l = Some x -> heap st' !! l = Some x).
Proof.
  assert (Hsame : forall l x, heap st !! l = Some x -> heap st !! l = Some x)
    by auto.
  unfold correct_distortion in Hraise.
  apply bind_Raise_inv in Hraise as [H|(d & st1 & Hload & H)].
  { apply load_Raise in H. congruence. }
  apply load_inv in Hload as [Hd ->].
  rewrite Hdata in Hd. inversion Hd; subst d; clear Hd.
  apply bind_Raise_inv in H as [H|([[xc yc] lf] & st1 & Hmeta & H)].
  { pose proof (load_metadata_txt_state metadata_path st) as Hst.
    rewrite H in Hst. simpl in Hst. subst st'.
    apply load_metadata_txt_exn in H as [Hnone|[->| ->]];
      (split; [|exact Hsame]); [right; exact Hnone| |]; left; in_list. }
  pose proof (load_metadata_txt_state metadata_path st) as Hst.
  rewrite Hmeta in Hst. simpl in Hst. subst st1.
  apply bind_Raise_inv in H as [H|(shift & st1 & Hs & H)].
  { pose proof (lift_Raise_state _ _ _ _ H) as ->.
    apply lift_Raise, py_key_Raise in H as ->.
    split; [left; in_list|exact Hsame]. }
  apply lift_inv in Hs as [_ ->].
  apply bind_Raise_inv in H as [H|(step & st1 & Hs & H)].
  { pose proof (lift_Raise_state _ _ _ _ H) as ->.
    apply lift_Raise, py_key_Raise in H as ->.
    split; [left; in_list|exact Hsame]. }
  apply lift_inv in Hs as [_ ->].
  apply bind_Raise_inv in H as [H|(step_x & st1 & Hs & H)].
  { pose proof (lift_Raise_state _ _ _ _ H) as ->.
    apply lift_Raise, py_nth_Raise in H as [-> _].
    split; [left; in_list|exact Hsame]. }
  apply lift_inv in Hs as [_ ->].
  apply bind_Raise_inv in H as [H|(step_y & st1 & Hs & H)].
  { pose proof (lift_Raise_state _ _ _ _ H) as ->.
    apply lift_Raise, py_nth_Raise in H as [-> _].
    split; [left; in_list|exact Hsame]. }
  apply lift_inv in Hs as [_ ->].
  apply bind_Raise_inv in H as [H|([] & st1 & Hs & H)].
  { pose proof (raise_if_Raise_state _ _ _ _ _ H) as ->.
    apply raise_if_Raise in H as [_ ->].
    split; [left; in_list|exact Hsame]. }
  apply raise_if_inv in Hs as [_ ->].
  apply bind_Raise_inv in H as [H|(x_offset & st1 & Hs & H)].
  { pose proof (lift_Raise_state _ _ _ _ H) as ->.
    apply lift_Raise, py_nth_Raise in H as [-> _].
    split; [left; in_list|exact Hsame]. }
  apply lift_inv in Hs as [_ ->].
  apply bind_Raise_inv in H as [H|(y_offset & st1 & Hs & H)].
  { pose proof (lift_Raise_state _ _ _ _ H) as ->.
    apply lift_Raise, py_nth_Raise in H as [-> _].
    split; [left; in_list|exact Hsame]. }
  apply lift_inv in Hs as [_ ->].
  destruct metadata_path as [path|];
    [|rewrite load_metadata_txt_None in Hmeta; discriminate].
  assert (Hfile : is_Some (files st !! path)).
  { revert Hmeta. unfold _load_metadata_txt, open_read. run. reduce.
    destruct (files st !! path); [eauto|discriminate]. }
  apply bind_Raise_inv in H as [H|(model & st1 & Hmodel & H)].
  { exfalso. revert H. unfold isfile.
    erewrite bind_Ok by reflexivity.
    rewrite bool_decide_eq_true_2 by exact Hfile. cbn [negb].
    erewrite bind_Ok by reflexivity.
    unfold except_IOError. erewrite bind_Ok by exact Hmeta.
    discriminate. }
  assert (st1 = st) as ->.
  { revert Hmodel. unfold isfile.
    erewrite bind_Ok by reflexivity.
    rewrite bool_decide_eq_true_2 by exact Hfile. cbn [negb].
    erewrite bind_Ok by reflexivity.
    unfold except_IOError. erewrite bind_Ok by exact Hmeta.
    unfold ret. intros E. now inversion E. }
  clear Hmodel. destruct model as [[x_center y_center] list_fact].
  apply bind_Raise_inv in H as [H|(a1 & st1 & Hs & H)].
  { apply load_Raise in H. cbn [base] in H. congruence. }
  apply load_inv in Hs as [Ha1 ->]. cbn [base] in Ha1.
  rewrite Hdata in Ha1. inversion Ha1; subst a1; clear Ha1.
  apply bind_Raise_inv in H as [H|(height & st1 & Hs & H)].
  { pose proof (lift_Raise_state _ _ _ _ H) as ->.
    apply lift_Raise, py_nth_Raise in H as [-> _].
    split; [left; in_list|exact Hsame]. }
  apply lift_inv in Hs as [_ ->].
  apply bind_Raise_inv in H as [H|(width & st1 & Hs & H)].
  { pose proof (lift_Raise_state _ _ _ _ H) as ->.
    apply lift_Raise, py_nth_Raise in H as [-> _].
    split; [left; in_list|exact Hsame]. }
  apply lift_inv in Hs as [_ ->].
  apply bind_Raise_inv in H as [H|(y_max & st1 & Hs & H)].
  { pose proof (lift_Raise_state _ _ _ _ H) as ->.
    apply lift_Raise in H. unfold np_max in H.
    destruct (ravel _ _ _); inversion H.
    split; [left; in_list|exact Hsame]. }
  apply lift_inv in Hs as [_ ->].
  apply bind_Raise_inv in H as [H|(y_min & st1 & Hs & H)].
  { pose proof (lift_Raise_state _ _ _ _ H) as ->.
    apply lift_Raise in H. unfold np_min in H.
    destruct (ravel _ _ _); inversion H.
    split; [left; in_list|exact Hsame]. }
  apply lift_inv in Hs as [_ ->].
  apply bind_Raise_inv in H as [H|([] & st1 & Hs & H)].
  { pose proof (raise_if_Raise_state _ _ _ _ _ H) as ->.
    apply raise_if_Raise in H as [_ ->].
    split; [left; in_list|exact Hsame]. }
  apply raise_if_inv in Hs as [_ ->].
  apply bind_Raise_inv in H as [H|(frames & st1 & Hs & H)].
  { pose proof (lift_Raise_state _ _ _ _ H) as ->.
    apply lift_Raise, py_nth_Raise in H as [-> _].
    split; [left; in_list|exact Hsame]. }
  apply lift_inv in Hs as [_ ->].
  apply bind_Raise_inv in H as [H|(r & st1 & Hloop & H)].
  { apply (unwarp_loop_Raise _ _ _ _ _ _ _ _ _ a) in H as [He Hp];
      [|exact Hdata].
    split; [|exact Hp]. destruct He as [->| ->]; left; in_list. }
  destruct r as [m|]; [discriminate H|].
  unfold raise in H. inversion H; subst e st'; clear H.
  split; [left; in_list|].
  pose proof Hloop as Hloop'.
  apply unwarp_loop_returned in Hloop' as (_ & _ & _ & Hno & _).
  destruct (Hno eq_refl) as [_ Hseq].
  destruct frames; [|discriminate Hseq].
  simpl in Hloop. unfold ret in Hloop. inversion Hloop; subst st1.
  exact Hsame.
Qed.

(** The exceptions of [correct_distortion] on an array and a path to a
    regular file that [open] and [read] give as text: those of the list,
    and no other. And a call that raises has written nothing: every
    array, the input among them, is as it was. *)
Theorem correct_distortion_raised
    (st st' : state) (data : loc) (a : ndarray)
    (path content : string) (preview : gmap string (list Z))
    (center_from_left center_from_top : option Q)
    (polynomial_coeffs : option (list Q)) (crop : Z) (e : exn)
    (Hdata : heap st !! data = Some a)
    (Hfile : files st !! path = Some content)
    (Hraise : correct_distortion data (Some path) preview center_from_left
                center_from_top polynomial_coeffs crop st = (Raise e, st')) :
  In e [IndexError; KeyError; RuntimeError; UnboundLocalError;
        ValueError MsgFloat; ValueError MsgStep;
        ValueError MsgEmptyReduction; ValueError MsgPreviewSize;
        ValueError MsgBroadcast]
  /\ (forall l x, heap st !! l = Some x -> heap st' !! l = Some x).
Proof.
  destruct (correct_distortion_exn st st' data a (Some path) preview
              center_from_left center_from_top polynomial_coeffs crop e
              Hdata Hraise) as [[Hin|Hnone] Hkept].
  - split; [exact Hin|exact Hkept].
  - rewrite (Hnone path eq_refl) in Hfile. discriminate Hfile.
Qed.

(** ** The distortion correction: the sampling map and what a call needs *)












(** ** The median filter: a call that returns *)

Lemma grid_covers (dx : nat) :
  (dx <= 128 * ((dx + 128 - 1) / 128)
   /\ 128 * ((dx + 128 - 1) / 128) < dx + 128)%nat.
Proof.
  pose proof (Nat.div_mod_eq (dx + 128 - 1) 128) as E.
  pose proof (Nat.mod_upper_bound (dx + 128 - 1) 128) as B.
  lia.
Qed.

(** On a float32 or uint16 array of three axes, none of length 0, with a
    kernel size among 3, 5, 7, 9, 11, 13 and of a size whose grid the
    driver accepts, [median_filter3d] returns: the result is a new array of
    the dtype and shape of the input, filled by the kernel, which was given
    the input and [dif] (0 when left out); the call made exactly one
    launch, of the [float] kernel on float32 and of the [unsigned short]
    kernel on uint16, with blocks of 128 threads and a grid of [dy] by [dz]
    rows of blocks whose threads cover the [dx] columns with fewer than 128
    to spare. *)
Theorem median_filter3d_returns
    (st : state) (data : loc) (a : ndarray) (dz dy dx : nat)
    (kernel_size : option Z) (dif : option Q)
    (Hdata : heap st !! data = Some a)
    (Hdtype : a_dtype a = float32 \/ a_dtype a = uint16)
    (Hshape : shape a = [dz; dy; dx])
    (Hpos : (0 < dz)%nat /\ (0 < dy)%nat /\ (0 < dx)%nat)
    (Hkernel : In (default 3%Z kernel_size) [3; 5; 7; 9; 11; 13]%Z)
    (Hlaunch : valid_launch (((dx + 128 - 1) / 128)%nat, dy, dz)
                 (128, 1, 1)%nat = true) :
  exists out o grid_x st',
    median_filter3d data kernel_size dif st = (Ok out, st')
    /\ heap st !! out = None
    /\ heap st' !! out = Some o
    /\ a_dtype o = a_dtype a
    /\ shape o = shape a
    /\ (let elem := if dtype_eqb (a_dtype a) float32 then c_float
                    else c_unsigned_short in
        item o = median_general_kernel elem (default 3%Z kernel_size) a
                   (default 0%Q dif)
        /\ trace st' = trace st ++ [Launch elem (default 3%Z kernel_size)
                                      (grid_x, dy, dz) (128, 1, 1)%nat])
    /\ (dx <= 128 * grid_x /\ 128 * grid_x < dx + 128)%nat.
Proof.
  assert (Hfresh : fresh (dom (heap st)) <> data)
    by (apply fresh_loc_ne with a; exact Hdata).
  exists (fresh (dom (heap st))). eexists. exists ((dx + 128 - 1) / 128)%nat.
  eexists. split.
  - unfold median_filter3d.
    ok (apply load_Some; exact Hdata).
    assert (Hd : dtype_eqb (a_dtype a) float32 || dtype_eqb (a_dtype a) uint16
                 = true).
    { destruct Hdtype as [-> | ->]; reflexivity. }
    rewrite Hd. cbn [negb]. ok reflexivity.
    unfold ndim. rewrite Hshape.
    change (length [dz; dy; dx] =? 3)%nat with true. reduce.
    assert (Hz : existsb (Nat.eqb 0) [dz; dy; dx] = false).
    { destruct Hpos as (H1 & H2 & H3).
      destruct dz, dy, dx; try lia; reflexivity. }
    rewrite Hz. ok reflexivity.
    apply existsb_Z_In in Hkernel. rewrite Hkernel. cbn [negb].
    ok reflexivity.
    ok reflexivity.
    unfold launch_median3d.
    ok (erewrite bind_Ok
          by (apply load_Some; cbn [heap set_heap];
              rewrite lookup_insert_ne by exact Hfresh; exact Hdata);
        reduce;
        erewrite bind_Ok
          by (apply load_Some; cbn [heap set_heap]; apply lookup_insert_eq);
        reduce;
        erewrite bind_Ok by reflexivity; reduce; reflexivity).
    cbn [nth]. reflexivity.
  - cbn [heap set_heap files device trace a_dtype shape item].
    split; [apply not_elem_of_dom, is_fresh|].
    split; [apply lookup_insert_eq|].
    split; [reflexivity|]. split; [symmetry; exact Hshape|].
    split; [split; reflexivity|].
    apply grid_covers.
Qed.

(** ** The normalisation: how a call ends *)

Lemma np_binop_exn op dt a b e :
  np_binop op dt a b = Raise e -> e = ValueError MsgBroadcast.
Proof.
  unfold np_binop. destruct (broadcast_shapes _ _); intros H; now inversion H.
Qed.

Ltac conds :=
  repeat match goal with |- _ /\ _ => split end;
  try (simpl length; lia); try assumption.

(** A step that may fail to broadcast: either the call ends there, or it
    goes on. *)
Ltac broadcast_step :=
  match goal with
  | |- context [(lift ?r ≫= ?k) ?st] =>
      let E := fresh "E" in
      destruct r as [?|?] eqn:E;
      [ ok reflexivity
      | erewrite bind_Raise by reflexivity;
        apply np_binop_exn in E; subst;
        do 4 right; conds; left; reflexivity ]
  end.

Lemma normalize_cupy_outcome
    (st : state) (data flats darks : loc) (d f k : ndarray)
    (gpu_id : Z) (cutoff : Q) (minus_log nonnegativity remove_nans : bool) :
  heap st !! data = Some d ->
  heap st !! flats = Some f ->
  heap st !! darks = Some k ->
  let r := (normalize_cupy data flats darks gpu_id cutoff minus_log
              nonnegativity remove_nans st).1 in
  ((ndim k = 0 \/ ndim f = 0)%nat /\ r = Raise AxisError)
  \/ ((0 < ndim k)%nat /\ (0 < ndim f)%nat /\ ndim d <> 3%nat
      /\ r = Raise (ValueError MsgData3D))
  \/ ((0 < ndim k)%nat /\ (0 < ndim f)%nat /\ ndim d = 3%nat
      /\ ndim f <> 3%nat /\ ndim f <> 4%nat
      /\ r = Raise (ValueError MsgFlats))
  \/ ((0 < ndim k)%nat /\ ndim d = 3%nat
      /\ (ndim f = 3 \/ ndim f = 4)%nat
      /\ ndim k <> 3%nat /\ ndim k <> 4%nat
      /\ r = Raise (ValueError MsgDarks))
  \/ (ndim d = 3%nat /\ (ndim f = 3 \/ ndim f = 4)%nat
      /\ (ndim k = 3 \/ ndim k = 4)%nat
      /\ (r = Raise (ValueError MsgBroadcast) \/ exists out, r = Ok out)).
Proof.
  intros Hdata Hflats Hdarks r. subst r. unfold normalize_cupy.
  ok (unfold use_device; reflexivity).
  ok (apply load_Some; exact Hdarks).
  destruct (shape k) as [|k0 sk] eqn:Sk.
  { erewrite bind_Raise by (unfold lift, np_mean0; rewrite Sk; reflexivity).
    left. unfold ndim. rewrite Sk. auto. }
  ok (unfold lift; rewrite (np_mean0_cons _ _ _ Sk); reflexivity).
  ok (apply load_Some; exact Hflats).
  destruct (shape f) as [|f0 sf] eqn:Sf.
  { erewrite bind_Raise by (unfold lift, np_mean0; rewrite Sf; reflexivity).
    left. unfold ndim. rewrite Sf. auto. }
  ok (unfold lift; rewrite (np_mean0_cons _ _ _ Sf); reflexivity).
  ok (apply load_Some; exact Hdata).
  assert (Nk : ndim k = S (length sk)) by (unfold ndim; now rewrite Sk).
  assert (Nf : ndim f = S (length sf)) by (unfold ndim; now rewrite Sf).
  destruct (ndim d =? 3)%nat eqn:Ed;
    [apply Nat.eqb_eq in Ed | apply Nat.eqb_neq in Ed].
  2:{ erewrite bind_Raise by reflexivity. right; left.
      repeat split; try lia. }
  cbn [negb]. ok reflexivity.
  rewrite Nk, Nf, Ed. clear Nk Nf. unfold ndim.
  destruct sf as [|a1 [|a2 [|a3 [|a4 sf]]]];
    cbn [shape length Nat.eqb existsb orb negb newaxis];
    try (erewrite bind_Raise by reflexivity; right; right; left; conds;
         reflexivity);
    (ok reflexivity);
    (destruct sk as [|b1 [|b2 [|b3 [|b4 sk]]]];
     cbn [shape length Nat.eqb existsb orb negb newaxis];
     try (erewrite bind_Raise by reflexivity; right; right; right; left;
          conds; reflexivity));
    (ok reflexivity);
    broadcast_step; store_step; store_step; store_step;
    broadcast_step; broadcast_step; store_step; store_step;
    destruct minus_log, nonnegativity, remove_nans;
    repeat store_step;
    do 4 right; conds; right; eexists; reflexivity.
Qed.

(** How a call of [normalize_cupy] on three arrays fails. The means over
    axis 0 come first, so a calibration array of no axis ends the call in
    an [AxisError]; then the data must have three axes; then the flats, and
    then the darks, must have had three or four axes before the mean (two
    or three after it); from there on the only error left is a failure to
    broadcast. *)
Theorem normalize_cupy_errors
    (st : state) (data flats darks : loc) (d f k : ndarray)
    (gpu_id : Z) (cutoff : Q) (minus_log nonnegativity remove_nans : bool)
    (Hdata : heap st !! data = Some d)
    (Hflats : heap st !! flats = Some f)
    (Hdarks : heap st !! darks = Some k) :
  let r := (normalize_cupy data flats darks gpu_id cutoff minus_log
              nonnegativity remove_nans st).1 in
  (r = Raise AxisError <-> (ndim k = 0 \/ ndim f = 0)%nat)
  /\ (r = Raise (ValueError MsgData3D) <->
        (0 < ndim k)%nat /\ (0 < ndim f)%nat /\ ndim d <> 3%nat)
  /\ (r = Raise (ValueError MsgFlats) <->
        (0 < ndim k)%nat /\ (0 < ndim f)%nat /\ ndim d = 3%nat
        /\ ndim f <> 3%nat /\ ndim f <> 4%nat)
  /\ (r = Raise (ValueError MsgDarks) <->
        (0 < ndim k)%nat /\ ndim d = 3%nat /\ (ndim f = 3 \/ ndim f = 4)%nat
        /\ ndim k <> 3%nat /\ ndim k <> 4%nat)
  /\ (forall e, r = Raise e ->
        In e [AxisError; ValueError MsgData3D; ValueError MsgFlats;
              ValueError MsgDarks; ValueError MsgBroadcast]).
Proof.
  intros r.
  destruct (normalize_cupy_outcome st data flats darks d f k gpu_id cutoff
              minus_log nonnegativity remove_nans Hdata Hflats Hdarks)
    as [(C & E)|[(C1 & C2 & C3 & E)|[(C1 & C2 & C3 & C4 & C5 & E)
        |[(C1 & C2 & C3 & C4 & C5 & E)|(C1 & C2 & C3 & [E|[out E]])]]]];
    fold r in E; rewrite E; clear E r;
    (split; [|split; [|split; [|split]]]);
    try (intros e He; inversion He; in_list);
    try (split; [intros He; try discriminate He; conds; lia
                | intros Hc; try reflexivity; exfalso; lia]).
Qed.



(** ** The distortion correction on one image *)

(** A single image is taken through [np.expand_dims], which is a view: the
    one frame assigned in the loop lands in the image of the caller. When
    the call returns, the array returned is new, has the cropped shape and
    is the frame unwarped from the image with the model of the file; the
    image itself, still of its shape and dtype, holds these same elements,
    spread over it where a crop made the frame smaller. *)
Theorem correct_distortion_image_overwritten
    (st st' : state) (data m : loc) (a : ndarray) (h w : nat)
    (metadata_path : option string) (preview : gmap string (list Z))
    (center_from_left center_from_top : option Q)
    (polynomial_coeffs : option (list Q)) (crop : Z)
    (Hdata : heap st !! data = Some a)
    (Hshape : shape a = [h; w])
    (Hreturn : correct_distortion data metadata_path preview center_from_left
                 center_from_top polynomial_coeffs crop st = (Ok m, st')) :
  heap st !! m = None
  /\ exists path xc yc lf shift x_offset y_offset c a',
       metadata_path = Some path
       /\ _load_metadata_txt (Some path) st = (Ok (xc, yc, lf), st)
       /\ preview !! "starts"%string = Some shift
       /\ shift !! 1%nat = Some x_offset
       /\ shift !! 0%nat = Some y_offset
       /\ heap st' !! m = Some c
       /\ c = unwarped (mk_view data true) a
                (yd_mat (xc - inject_Z x_offset) (yc - inject_Z y_offset) lf h)
                (xd_mat (xc - inject_Z x_offset) (yc - inject_Z y_offset) lf w)
                h w crop 0
       /\ shape c = cropped_shape h w crop
       /\ heap st' !! data = Some a'
       /\ shape a' = [h; w]
       /\ a_dtype a' = a_dtype a
       /\ forall idx,
            item a' idx = item c (bcast_index (cropped_shape h w crop) idx).
Proof.
  apply correct_distortion_inv in Hreturn
    as (a0 & path & xc & yc & lf & shift & step & xo & yo & h0 & w0 & n0
        & Ha & Hpath & Hmeta & Hshift & _ & _ & Hxo & Hyo & Hn & Hh & Hw
        & Hloop).
  rewrite Hdata in Ha. inversion Ha; subst a0; clear Ha.
  unfold ndim in Hn, Hh, Hw, Hloop. rewrite Hshape in Hn, Hh, Hw, Hloop.
  change (length [h; w] =? 2)%nat with true in Hn, Hh, Hw, Hloop.
  unfold view_shape in Hn, Hh, Hw. cbn [expanded] in Hn, Hh, Hw.
  rewrite Hshape in Hn, Hh, Hw. cbn in Hn, Hh, Hw.
  inversion Hn; inversion Hh; inversion Hw; subst n0 h0 w0.
  cbn [seq unwarp_loop] in Hloop.
  apply bind_inv in Hloop as (m0 & st1 & Hstep & Hret).
  unfold ret in Hret. inversion Hret; subst m0 st1; clear Hret.
  apply unwarp_frame_inv in Hstep as (a0 & Ha0 & _ & Hm & _ & Hst').
  cbn [base] in Ha0, Hst'. rewrite Hdata in Ha0.
  inversion Ha0; subst a0; clear Ha0.
  assert (Hne : m <> data) by (subst m; apply fresh_loc_ne with a; exact Hdata).
  split; [subst m; apply not_elem_of_dom, is_fresh|].
  exists path, xc, yc, lf, shift, xo, yo.
  eexists. eexists.
  repeat (split; [eassumption|]).
  split.
  { rewrite Hst'. cbn [heap]. rewrite lookup_insert_ne by congruence.
    apply lookup_insert_eq. }
  split; [reflexivity|]. split; [apply unwarped_shape|].
  split; [rewrite Hst'; cbn [heap]; apply lookup_insert_eq|].
  split; [exact Hshape|]. split; [reflexivity|].
  intros idx. cbn [with_frame item expanded].
  now rewrite unwarped_shape.
Qed.

(** ** The raw normalisation kernel: which elements the launch reaches *)

Lemma strided_loop_bounds (fuel start bound stride i : nat) :
  In i (strided_loop fuel start bound stride) -> (start <= i < bound)%nat.
Proof.
  revert start. induction fuel as [|fuel IH]; intros start; simpl.
  - contradiction.
  - destruct (start <? bound)%nat eqn:E; [|contradiction].
    apply Nat.ltb_lt in E. intros [<-|H]; [lia|].
    apply IH in H. lia.
Qed.

Lemma strided_loop_reaches (stride bound k : nat) :
  forall fuel start,
    (start + k * stride < bound)%nat -> (k < fuel)%nat ->
    In (start + k * stride)%nat (strided_loop fuel start bound stride).
Proof.
  induction k as [|k IH]; intros fuel start Hb Hf;
    (destruct fuel as [|fuel]; [lia|]); simpl.
  - assert (E : (start <? bound)%nat = true) by (apply Nat.ltb_lt; lia).
    rewrite E. left. lia.
  - assert (E : (start <? bound)%nat = true) by (apply Nat.ltb_lt; lia).
    rewrite E. right.
    replace (start + (stride + k * stride))%nat
      with (start + stride + k * stride)%nat by lia.
    apply IH; lia.
Qed.

Lemma strided_reaches (stride bound i : nat) :
  (0 < stride)%nat -> (i < bound)%nat ->
  In i (strided (i mod stride) bound stride).
Proof.
  intros Hs Hi. unfold strided.
  pose proof (Nat.div_mod_eq i stride) as E.
  replace i with (i mod stride + (i / stride) * stride)%nat at 1 by lia.
  apply strided_loop_reaches; [lia|].
  assert ((i / stride) * 1 <= (i / stride) * stride)%nat
    by (apply Nat.mul_le_mono_l; lia).
  lia.
Qed.

Lemma in_indices3 (nx ny nz x y z : nat) :
  In (x, y, z) (indices3 (nx, ny, nz))
  <-> (x < nx)%nat /\ (y < ny)%nat /\ (z < nz)%nat.
Proof.
  unfold indices3. rewrite in_flat_map. split.
  - intros (z' & Hz & H). apply in_flat_map in H as (y' & Hy & H).
    apply in_map_iff in H as (x' & E & Hx). inversion E; subst.
    apply in_seq in Hx, Hy, Hz. lia.
  - intros (Hx & Hy & Hz). exists z. split; [apply in_seq; lia|].
    apply in_flat_map. exists y. split; [apply in_seq; lia|].
    apply in_map_iff. exists x. split; [reflexivity|apply in_seq; lia].
Qed.


Lemma thread_indices_reach (A B bdx bdy bdz tz a b : nat) :
  (0 < bdx)%nat -> (0 < bdy)%nat -> (a < A)%nat -> (b < B)%nat ->
  In (a * B + b)%nat
     (thread_indices A B (b mod bdx, a mod bdy, tz)%nat (bdx, bdy, bdz)).
Proof.
  intros Hx Hy Ha Hb. unfold thread_indices. apply in_flat_map.
  exists a. split; [now apply strided_reaches|].
  apply in_map_iff. exists b. split; [reflexivity|now apply strided_reaches].
Qed.


Lemma normalize_accesses_reach (gx gy gz bdx bdy bdz A B bid a b : nat) :
  (bid < gx)%nat -> (0 < gy)%nat -> (0 < gz)%nat ->
  (0 < bdx)%nat -> (0 < bdy)%nat -> (0 < bdz)%nat ->
  (a < A)%nat -> (b < B)%nat ->
  In ((bid * A * B)%nat, (a * B + b)%nat)
     (normalize_accesses (gx, gy, gz) (bdx, bdy, bdz) A B).
Proof.
  intros Hbid Hgy Hgz Hx Hy Hz Ha Hb. unfold normalize_accesses.
  apply in_flat_map. exists (bid, 0, 0)%nat.
  split; [apply in_indices3; lia|].
  apply in_flat_map. exists (b mod bdx, a mod bdy, 0)%nat. split.
  - apply in_indices3. repeat split; try lia; apply Nat.mod_upper_bound; lia.
  - apply in_map_iff. exists (a * B + b)%nat. split; [reflexivity|].
    now apply thread_indices_reach.
Qed.


(** ** The raw normalisation kernel: what the rounds leave in [out] *)


Lemma normalize_at_outside (data flat dark : buffer) (cutoff : Q)
    (take_log_param nonnegativity_param : Z) (base index : nat)
    (out : buffer) :
  (extent data <= base + index)%nat ->
  normalize_at data flat dark cutoff take_log_param nonnegativity_param
    (base, index) out = None.
Proof.
  intros Hd. unfold normalize_at, read.
  apply Nat.ltb_ge in Hd. rewrite Hd.
  destruct (index <? extent flat)%nat, (index <? extent dark)%nat;
    reflexivity.
Qed.

Lemma run_accesses_outside (data flat dark : buffer) (cutoff : Q)
    (take_log_param nonnegativity_param : Z) (accesses : list (nat * nat))
    (base index : nat) :
  In (base, index) accesses ->
  (extent data <= base + index)%nat ->
  forall out,
    run_accesses (normalize_at data flat dark cutoff take_log_param
                    nonnegativity_param) accesses out = None.
Proof.
  intros Hin Hd. induction accesses as [|x accesses IH]; intros out.
  - contradiction.
  - simpl. destruct Hin as [->|Hin].
    + now rewrite normalize_at_outside.
    + destruct (normalize_at _ _ _ _ _ _ x out); [now apply IH|reflexivity].
Qed.



(** ** Offsets and multi-indices *)






(** ** [normalize_raw_cuda]: the launch with 32 blocks of N threads *)

Lemma valid_launch_frames (N : nat) :
  (0 < N)%nat -> (N <= 1024)%nat ->
  valid_launch (32, 32, 1)%nat (N, 1, 1)%nat = true.
Proof.
  intros H0 H1. unfold valid_launch.
  assert (E0 : (0 <? N)%nat = true) by (apply Nat.ltb_lt; lia).
  assert (E1 : (N * 1 * 1 <=? 1024)%nat = true) by (apply Nat.leb_le; lia).
  rewrite E0, E1. reflexivity.
Qed.

Lemma valid_launch_refused (N : nat) :
  (1024 < N)%nat -> valid_launch (32, 32, 1)%nat (N, 1, 1)%nat = false.
Proof.
  intros H. unfold valid_launch.
  assert (E0 : (0 <? N)%nat = true) by (apply Nat.ltb_lt; lia).
  assert (E1 : (N * 1 * 1 <=? 1024)%nat = false) by (apply Nat.leb_gt; lia).
  rewrite E0, E1. reflexivity.
Qed.

Lemma thread_ints_inside (A B bid : nat) (threadIdx blockDim : nat * nat * nat)
    (v : nat) :
  In v (thread_ints A B bid threadIdx blockDim) ->
  v = (bid * A)%nat \/ v = (bid * A * B)%nat
  \/ exists a, (a < A)%nat
       /\ (v = (a + blockDim.1.2)%nat
           \/ exists b, (b < B)%nat
                /\ (v = (a * B)%nat \/ v = (a * B + b)%nat
                    \/ v = (b + blockDim.1.1)%nat)).
Proof.
  destruct threadIdx as [[tx ty] tz], blockDim as [[bdx bdy] bdz].
  unfold thread_ints. cbn [fst snd]. intros H.
  apply in_app_or in H as [H|H].
  - destruct H as [<-|[<-|[]]]; auto.
  - right. right. apply in_flat_map in H as (a & Ha & H).
    apply strided_loop_bounds in Ha. exists a. split; [lia|].
    apply in_app_or in H as [H|H].
    + right. apply in_flat_map in H as (b & Hb & H).
      apply strided_loop_bounds in Hb. exists b. split; [lia|].
      destruct H as [<-|[<-|[<-|[]]]]; auto.
    + left. destruct H as [<-|[]]. reflexivity.
Qed.

Lemma normalize_ints_fit (N A B : nat) :
  (N <= 1024)%nat -> int_sized A B ->
  forallb int_fits (normalize_ints (32, 32, 1)%nat (N, 1, 1)%nat A B) = true.
Proof.
  intros HN (HA & HB & HAB). apply forallb_forall. intros v Hv.
  unfold int_fits. apply Z.ltb_lt.
  assert (H25 : (2 ^ 25 = 33554432)%Z) by reflexivity.
  assert (H31 : (2 ^ 31 = 2147483648)%Z) by reflexivity.
  rewrite H25 in HA, HB. rewrite H31 in HAB |- *.
  unfold normalize_ints in Hv. apply in_app_or in Hv as [Hv|Hv].
  { destruct Hv as [<-|[<-|[]]]; lia. }
  apply in_flat_map in Hv as ([[bx by_] bz] & Hblock & Hv).
  apply in_indices3 in Hblock as (Hbx & _ & _).
  apply in_flat_map in Hv as (threadIdx & _ & Hv).
  apply thread_ints_inside in Hv. cbn [fst snd] in Hv.
  assert (Hab : (0 <= Z.of_nat A * Z.of_nat B)%Z) by lia.
  destruct Hv as [->|[->|(a & Ha & [->|(b & Hb & [->|[->| ->]])])]].
  - rewrite Nat2Z.inj_mul. nia.
  - rewrite !Nat2Z.inj_mul. nia.
  - lia.
  - rewrite Nat2Z.inj_mul. nia.
  - rewrite Nat2Z.inj_add, Nat2Z.inj_mul. nia.
  - lia.
Qed.


(** With other numbers of frames the call does not get that far. With
    more than 1024 the driver refuses the block, and the call raises. With
    fewer than 32 frames of at least one pixel (none at all among them:
    CuPy then asks for a block of one thread) the 32 blocks outnumber the
    frames, and block [N] reads and writes past the end of [data] and
    [out]. *)
Theorem normalize_raw_cuda_other_frame_counts
    (st : state) (data flats darks : loc) (d f k : ndarray)
    (N A B kf kd : nat) (sf sk : list nat) (gpu_id : Z) (cutoff : Q)
    (minus_log nonnegativity : bool)
    (Hdata : heap st !! data = Some d)
    (Hflats : heap st !! flats = Some f)
    (Hdarks : heap st !! darks = Some k)
    (Hdtype : a_dtype d = uint16)
    (Sd : shape d = [N; A; B]) (Sf : shape f = kf :: sf)
    (Sk : shape k = kd :: sk) :
  let r := (normalize_raw_cuda data flats darks gpu_id cutoff minus_log
              nonnegativity st).1 in
  ((1024 < N)%nat -> r = Raise RuntimeError)
  /\ ((N < 32)%nat -> (0 < A)%nat -> (0 < B)%nat -> int_sized A B ->
      r = Ok OutOfBounds).
Proof.
  assert (Hfresh : fresh (dom (heap st)) <> data)
    by (apply fresh_loc_ne with d; exact Hdata).
  intros r. subst r. unfold normalize_raw_cuda.
  ok (unfold use_device; reflexivity).
  ok (apply load_Some; exact Hdarks).
  ok (unfold lift; rewrite (np_mean0_cons _ _ _ Sk); reflexivity).
  ok (apply load_Some; exact Hflats).
  ok (unfold lift; rewrite (np_mean0_cons _ _ _ Sf); reflexivity).
  ok (apply load_Some; exact Hdata).
  ok reflexivity.
  rewrite Sd.
  ok reflexivity. ok reflexivity. ok reflexivity.
  split.
  - intros HN.
    assert (Hdims : at_least_1 (N, 1, 1)%nat = (N, 1, 1)%nat)
      by (unfold at_least_1; rewrite (Nat.max_r 1 N) by lia; reflexivity).
    erewrite bind_Raise
      by (unfold launch_normalize; rewrite Hdims;
          change (at_least_1 (32, 32, 1)%nat) with (32, 32, 1)%nat; reduce;
          rewrite valid_launch_refused by exact HN;
          cbn [negb]; erewrite bind_Raise by reflexivity; reflexivity).
    reflexivity.
  - intros HN HA HB Hint.
    assert (Hdims : at_least_1 (N, 1, 1)%nat = (Nat.max 1 N, 1, 1)%nat)
      by reflexivity.
    ok (unfold launch_normalize; rewrite Hdims;
        change (at_least_1 (32, 32, 1)%nat) with (32, 32, 1)%nat; reduce;
        rewrite valid_launch_frames by lia; cbn [negb];
        erewrite bind_Ok by reflexivity; reduce;
        erewrite bind_Ok
          by (apply load_Some; cbn [heap set_heap];
              rewrite lookup_insert_ne by exact Hfresh; exact Hdata);
        reduce;
        erewrite bind_Ok
          by (apply load_Some; cbn [heap set_heap]; apply lookup_insert_eq);
        reduce;
        rewrite Hdtype; cbn [dtype_eqb negb];
        rewrite normalize_ints_fit by (lia || exact Hint); cbn [negb];
        rewrite (run_accesses_outside _ _ _ _ _ _ _ (N * A * B)%nat
                   (0 * B + 0)%nat)
          by first [ apply normalize_accesses_reach; lia
                   | unfold buffer_of; cbn [extent]; rewrite Sd;
                     cbn [numel fold_right]; lia ];
        reflexivity).
    reflexivity.
Qed.

(** ** The distortion correction: the frames it resamples *)

(** A call that returns has resampled every frame once, in the order of
    the stack, and has done nothing else that leaves a trace: one call of
    [map_coordinates] for a single image, and one for each frame of a
    stack. *)
Theorem correct_distortion_resamples_each_frame_once
    (st st' : state) (data m : loc) (a : ndarray)
    (metadata_path : option string) (preview : gmap string (list Z))
    (center_from_left center_from_top : option Q)
    (polynomial_coeffs : option (list Q)) (crop : Z)
    (Hdata : heap st !! data = Some a)
    (Hreturn : correct_distortion data metadata_path preview center_from_left
                 center_from_top polynomial_coeffs crop st = (Ok m, st')) :
  trace st'
  = trace st ++ map Resample
                  (seq 0 (if (ndim a =? 2)%nat then 1%nat
                          else nth 0 (shape a) 0%nat)).
Proof.
  apply correct_distortion_inv in Hreturn
    as (a0 & path & xc & yc & lf & shift & step & xo & yo & h0 & w0 & n0
        & Ha & _ & _ & _ & _ & _ & _ & _ & Hn & _ & _ & Hloop).
  rewrite Hdata in Ha. inversion Ha; subst a0; clear Ha.
  apply unwarp_loop_returned in Hloop as (_ & _ & _ & _ & Htrace).
  rewrite Htrace. do 3 f_equal.
  unfold view_shape in Hn. cbn [expanded] in Hn.
  destruct (ndim a =? 2)%nat.
  - cbn in Hn. now inversion Hn.
  - destruct (shape a) as [|n s]; [discriminate Hn|].
    cbn in Hn. now inversion Hn.
Qed.

End Transforms.

(** * The theorems at work on inputs *)

Lemma pair_of_run {A} (r : result A * state) (a : A) :
  r.1 = Ok a -> r = (Ok a, r.2).
Proof. destruct r as [x st]. simpl. now intros ->. Qed.

(** C6: the volume with a kernel size of 4. *)
Lemma median_filter3d_errors_witness :
  let r := median_filter3d median_kernel_spec zero_filled 1%positive
             (Some 4%Z) None st_volume in
  (is_type_error r.1 <-> bad_dtype volume_3x3x3)
  /\ (is_shape_error r.1 <-> ~ bad_dtype volume_3x3x3 /\ bad_shape volume_3x3x3)
  /\ (is_parameter_error r.1 <->
        ~ bad_dtype volume_3x3x3 /\ ~ bad_shape volume_3x3x3
        /\ bad_kernel_size 4%Z)
  /\ (forall e, r.1 = Raise e -> r.2 = st_volume).
Proof.
  apply (median_filter3d_errors median_kernel_spec zero_filled st_volume
           1%positive volume_3x3x3 (Some 4%Z) None).
  reflexivity.
Defined.

(** C6 as the claim has it fails on an image of 64-bit floats: it is not
    3-dimensional, and the error raised is the dtype error, not the shape
    error. *)
Lemma median_filter3d_shape_error_counterexample :
  ~ (is_shape_error
       (median_filter3d median_kernel_spec zero_filled 1%positive None None
          st_float64).1
     <-> bad_shape image_float64).
Proof.
  intros [_ H].
  assert (Hb : bad_shape image_float64) by (left; discriminate).
  destruct (H Hb) as [E|E]; vm_compute in E; discriminate E.
Qed.

(** C9: a file with a label on one line and blanks around a value. *)
Lemma load_metadata_txt_returns_witness :
  _load_metadata_txt decimal_float (Some "coeffs.txt"%string) st_identity
  = (Ok ((5 # 10)%Q, (5 # 10)%Q, [(10 # 10)%Q; (0 # 10)%Q]), st_identity).
Proof.
  apply (load_metadata_txt_returns decimal_float st_identity
           "coeffs.txt"%string identity_file
           "x_center 0.5"%string "y_center 0.5"%string
           ["1.0"; "0.0"]%string).
  - reflexivity.
  - reflexivity.
  - reflexivity.
  - reflexivity.
  - repeat constructor.
Defined.

(** C1: no file, a centre and coefficients. *)
Lemma correct_distortion_without_file_witness :
  correct_distortion decimal_float sqrt_dyadic 1%positive None unit_preview
    (Some (1 # 2)%Q) (Some (1 # 2)%Q) (Some [1%Q; 0%Q]) 0%Z st_identity
  = (Raise TypeError, st_identity).
Proof.
  apply (correct_distortion_without_file decimal_float sqrt_dyadic
           st_identity 1%positive stack_2x2x2).
  reflexivity.
Defined.

(** C7: a step of 2, no file, a centre and coefficients. *)
Lemma correct_distortion_step_above_1_witness :
  let r := correct_distortion decimal_float sqrt_dyadic 1%positive None
             strided_preview (Some (1 # 2)%Q) (Some (1 # 2)%Q)
             (Some [1%Q; 0%Q]) 0%Z st_identity in
  r.2 = st_identity
  /\ (exists e, r.1 = Raise e)
  /\ (r.1 = Raise (ValueError MsgStep) <->
        exists model, (_load_metadata_txt decimal_float None st_identity).1
                      = Ok model)
  /\ (@None string = None -> r.1 = Raise TypeError).
Proof.
  apply (correct_distortion_step_above_1 decimal_float sqrt_dyadic
           st_identity 1%positive stack_2x2x2 None strided_preview
           [0; 0; 0]%Z [2; 1; 1]%Z 1%Z 2%Z).
  - reflexivity.
  - reflexivity.
  - reflexivity.
  - reflexivity.
  - reflexivity.
  - right. lia.
Defined.

(** C4: one frame as flat, one frame as dark. *)
Lemma normalize_cupy_2d_calibration_raises_witness :
  (normalize_cupy log_series 1%positive 2%positive 3%positive 0%Z 10%Q
     false false false st_single_calibration).1
  = Raise (ValueError MsgFlats).
Proof.
  apply (normalize_cupy_2d_calibration_raises log_series
           st_single_calibration 1%positive 2%positive 3%positive
           (full float32 [1; 2; 2]%nat 12%Q) (full float32 [2; 2]%nat 2%Q)
           (full float32 [2; 2]%nat 2%Q)); reflexivity.
Defined.



(** C2: two frames go in, one comes out. *)
Lemma correct_distortion_returns_one_frame_witness :
  let r := correct_distortion decimal_float sqrt_dyadic 1%positive
             (Some "coeffs.txt"%string) unit_preview None None None 0%Z
             st_identity in
  heap st_identity !! 3%positive = None
  /\ exists c,
       heap r.2 !! 3%positive = Some c
       /\ shape c = [2; 2]%nat
       /\ ndim c = 2%nat.
Proof.
  apply (correct_distortion_returns_one_frame decimal_float sqrt_dyadic
           st_identity _ 1%positive 3%positive stack_2x2x2
           (Some "coeffs.txt"%string) unit_preview None None None 0%Z
           2 2 2).
  - reflexivity.
  - reflexivity.
  - lia.
  - apply pair_of_run. vm_compute. reflexivity.
Defined.

(** C8: of the frames 0 1 2 3 and 4 5 6 7 the second is returned. *)
Lemma correct_distortion_identity_last_frame_witness :
  let r := correct_distortion decimal_float sqrt_dyadic 1%positive
             (Some "coeffs.txt"%string) unit_preview None None None 0%Z
             st_identity in
  exists c,
    heap r.2 !! 3%positive = Some c
    /\ shape c = [2; 2]%nat
    /\ (item c [0; 0]%nat == 4)%Q /\ (item c [0; 1]%nat == 5)%Q
    /\ (item c [1; 0]%nat == 6)%Q /\ (item c [1; 1]%nat == 7)%Q.
Proof.
  intros r.
  destruct (correct_distortion_identity_last_frame decimal_float sqrt_dyadic
              st_identity r.2 1%positive 3%positive stack_2x2x2
              "coeffs.txt"%string unit_preview None None None 0%Z 2 2 2
              (5 # 10)%Q (5 # 10)%Q (10 # 10)%Q [(0 # 10)%Q])
    as (_ & c & Hc & Hs & Hitems).
  - reflexivity.
  - reflexivity.
  - reflexivity.
  - reflexivity.
  - repeat constructor.
  - lia.
  - simpl. lia.
  - simpl. lia.
  - apply pair_of_run. vm_compute. reflexivity.
  - exists c. split; [exact Hc|]. split; [exact Hs|].
    repeat split; rewrite Hitems by (simpl; lia); reflexivity.
Defined.

(** C3: a run of each transform. *)
Lemma transforms_and_input_witness :
  (heap st_small !! 5%positive = None
   /\ forall l x, heap st_small !! l = Some x ->
        heap (normalize_cupy log_series 1%positive 2%positive 3%positive
                0%Z 10%Q false false false st_small).2 !! l = Some x)
  /\ (heap st_volume !! 2%positive = None
      /\ forall l x, heap st_volume !! l = Some x ->
           heap (median_filter3d median_kernel_spec zero_filled 1%positive
                   None None st_volume).2 !! l = Some x)
  /\ (heap st_half !! 2%positive = None
      /\ exists a',
           heap (correct_distortion decimal_float sqrt_dyadic 1%positive
                   (Some "coeffs.txt"%string) unit_preview None None None
                   0%Z st_half).2 !! 1%positive = Some a'
           /\ shape a' = [1; 3; 3]%nat).
Proof.
  destruct (transforms_and_input median_kernel_spec zero_filled
              decimal_float sqrt_dyadic log_series) as (Hn & Hm & Hd).
  split; [|split].
  - apply (Hn st_small
             (normalize_cupy log_series 1%positive 2%positive 3%positive
                0%Z 10%Q false false false st_small).2
             1%positive 2%positive 3%positive 0%Z 10%Q
             false false false 5%positive).
    apply pair_of_run. vm_compute. reflexivity.
  - apply (Hm st_volume
             (median_filter3d median_kernel_spec zero_filled 1%positive
                None None st_volume).2
             1%positive None None 2%positive).
    apply pair_of_run. vm_compute. reflexivity.
  - destruct (Hd st_half
                (correct_distortion decimal_float sqrt_dyadic 1%positive
                   (Some "coeffs.txt"%string) unit_preview None None None
                   0%Z st_half).2
                1%positive (Some "coeffs.txt"%string)
                unit_preview None None None 0%Z 2%positive stack_1x3x3
                1%nat 3%nat 3%nat)
      as (Hfresh & _ & path & xc & yc & lf & shift & xo & yo & a'
          & _ & _ & _ & _ & _ & Ha' & Hs & _).
    + apply pair_of_run. vm_compute. reflexivity.
    + reflexivity.
    + reflexivity.
    + split; [exact Hfresh|]. exists a'. split; [exact Ha'|exact Hs].
Defined.

(** C3 as the claim has it fails for [correct_distortion]: with the one
    coefficient 0.5 about the corner the call returns, and the middle pixel
    of its input, which was 4, is 2 afterwards. *)
Lemma correct_distortion_input_unchanged_counterexample :
  let r := correct_distortion decimal_float sqrt_dyadic 1%positive
             (Some "coeffs.txt"%string) unit_preview None None None 0%Z
             st_half in
  r.1 = Ok 2%positive
  /\ exists before after,
       heap st_half !! 1%positive = Some before
       /\ heap r.2 !! 1%positive = Some after
       /\ (item before [0; 1; 1]%nat == 4)%Q
       /\ (item after [0; 1; 1]%nat == 2)%Q
       /\ ~ (item after [0; 1; 1]%nat == item before [0; 1; 1]%nat)%Q.
Proof.
  intros r. split; [vm_compute; reflexivity|].
  assert (H : option_map (fun a => Qred (item a [0; 1; 1]%nat))
                (heap r.2 !! 1%positive) = Some 2%Q)
    by (vm_compute; reflexivity).
  destruct (heap r.2 !! 1%positive) as [after|]; [|discriminate H].
  simpl in H. injection H as H2.
  assert (Hafter : (item after [0; 1; 1]%nat == 2)%Q)
    by (rewrite <- (Qred_correct (item after [0; 1; 1]%nat)), H2; reflexivity).
  exists stack_1x3x3, after.
  split; [reflexivity|]. split; [reflexivity|].
  split; [reflexivity|]. split; [exact Hafter|].
  rewrite Hafter. discriminate.
Qed.

(** The scenario of C5 in binary32: 20 flats and 20 darks of 2.0, data of
    12.0 and a cutoff of 10.0 give 10.0, with no rounding on the way. *)
Example normalize_scenario_binary32 :
  normalize_pixel_binary32 (binary32 12)
    (mean_binary32 (replicate 20 (binary32 2)))
    (mean_binary32 (replicate 20 (binary32 2))) (binary32 10)
  = binary32 10.
Proof. vm_compute. reflexivity. Qed.

(** With a crop the frame made no longer fits the frame it is assigned to:
    the two frames of 2 x 2 pixels with [crop=1]. *)
Example correct_distortion_crop_does_not_fit :
  (correct_distortion decimal_float sqrt_dyadic 1%positive
     (Some "coeffs.txt"%string) unit_preview None None None 1%Z
     st_identity).1
  = Raise (ValueError MsgBroadcast).
Proof. vm_compute. reflexivity. Qed.

(** * The further properties at work on inputs *)

Lemma pair_of_raise {A} (r : result A * state) (e : exn) :
  r.1 = Raise e -> r = (Raise e, r.2).
Proof. destruct r as [x st]. simpl. now intros ->. Qed.

(** The file of the two frames: four lines, four values. *)
Lemma load_metadata_txt_returned_witness :
  st_identity = st_identity
  /\ exists path content,
       Some "coeffs.txt"%string = Some path
       /\ files st_identity !! path = Some content
       /\ Forall2 (fun line v => line_value decimal_float line = Some v)
            (splitlines content)
            [(5 # 10)%Q; (5 # 10)%Q; (10 # 10)%Q; (0 # 10)%Q].
Proof.
  apply (load_metadata_txt_returned decimal_float st_identity st_identity
           (Some "coeffs.txt"%string) (5 # 10)%Q (5 # 10)%Q
           [(10 # 10)%Q; (0 # 10)%Q]).
  reflexivity.
Defined.

(** A file of one line. *)
Lemma load_metadata_txt_raised_witness :
  (_load_metadata_txt decimal_float (Some "coeffs.txt"%string)
     st_short_file).1 = Raise IndexError
  /\ st_short_file = st_short_file.
Proof.
  split; [reflexivity|].
  apply (load_metadata_txt_raised decimal_float st_short_file st_short_file
           "coeffs.txt"%string "0.5"%string IndexError).
  - reflexivity.
  - reflexivity.
Defined.

(** The line [x_center 0.5]. *)
Lemma line_value_ignores_label_witness :
  line_value decimal_float "x_center 0.5"%string = Some (5 # 10)%Q.
Proof.
  apply (line_value_ignores_label decimal_float "x_center"%string
           "0.5"%string (ascii_of_nat 32)); reflexivity.
Defined.

(** The two frames of 2 x 2 pixels with [crop=1]: the call fails to
    broadcast, and the stack is still in the store. *)
Lemma correct_distortion_raised_witness :
  let r := correct_distortion decimal_float sqrt_dyadic 1%positive
             (Some "coeffs.txt"%string) unit_preview None None None 1%Z
             st_identity in
  In (ValueError MsgBroadcast)
     [IndexError; KeyError; RuntimeError; UnboundLocalError;
      ValueError MsgFloat; ValueError MsgStep;
      ValueError MsgEmptyReduction; ValueError MsgPreviewSize;
      ValueError MsgBroadcast]
  /\ (forall l x, heap st_identity !! l = Some x -> heap r.2 !! l = Some x).
Proof.
  intros r.
  apply (correct_distortion_raised decimal_float sqrt_dyadic st_identity r.2
           1%positive stack_2x2x2 "coeffs.txt"%string identity_file
           unit_preview None None None 1%Z (ValueError MsgBroadcast)).
  - reflexivity.
  - reflexivity.
  - apply pair_of_raise. vm_compute. reflexivity.
Defined.



(** The volume of 3 x 3 x 3 voxels: one launch, one block a row. *)
Lemma median_filter3d_returns_witness :
  exists out o grid_x st',
    median_filter3d median_kernel_spec zero_filled 1%positive None None
      st_volume = (Ok out, st')
    /\ heap st_volume !! out = None
    /\ heap st' !! out = Some o
    /\ a_dtype o = float32
    /\ shape o = [3; 3; 3]%nat
    /\ trace st' = [Launch c_float 3%Z (grid_x, 3, 3)%nat (128, 1, 1)%nat]
    /\ (3 <= 128 * grid_x /\ 128 * grid_x < 3 + 128)%nat.
Proof.
  destruct (median_filter3d_returns median_kernel_spec zero_filled st_volume
              1%positive volume_3x3x3 3 3 3 None None)
    as (out & o & grid_x & st' & Hrun & Hnew & Ho & Hdt & Hsh & [_ Htr]
        & Hgrid).
  - reflexivity.
  - left. reflexivity.
  - reflexivity.
  - lia.
  - simpl. auto.
  - reflexivity.
  - exists out, o, grid_x, st'. repeat (split; [assumption|]).
    exact Hgrid.
Defined.

(** One frame as flat and one as dark: the error is that of the flats. *)
Lemma normalize_cupy_errors_witness :
  let r := (normalize_cupy log_series 1%positive 2%positive 3%positive 0%Z
              10%Q true true false st_single_calibration).1 in
  r = Raise (ValueError MsgFlats) <->
    (0 < 2)%nat /\ (0 < 2)%nat /\ 3%nat = 3%nat /\ 2%nat <> 3%nat
    /\ 2%nat <> 4%nat.
Proof.
  destruct (normalize_cupy_errors log_series st_single_calibration
              1%positive 2%positive 3%positive
              (full float32 [1; 2; 2]%nat 12%Q) (full float32 [2; 2]%nat 2%Q)
              (full float32 [2; 2]%nat 2%Q) 0%Z 10%Q true true false
              eq_refl eq_refl eq_refl) as (_ & _ & H & _).
  exact H.
Defined.


(** One image of 2 x 2 pixels: what is returned is at 2, and the image at 1
    holds it. *)
Lemma correct_distortion_image_overwritten_witness :
  let r := correct_distortion decimal_float sqrt_dyadic 1%positive
             (Some "coeffs.txt"%string) unit_preview None None None 0%Z
             st_image in
  heap st_image !! 2%positive = None
  /\ exists c a',
       heap r.2 !! 2%positive = Some c
       /\ shape c = [2; 2]%nat
       /\ heap r.2 !! 1%positive = Some a'
       /\ shape a' = [2; 2]%nat
       /\ forall idx, item a' idx = item c (bcast_index [2; 2]%nat idx).
Proof.
  intros r.
  destruct (correct_distortion_image_overwritten decimal_float sqrt_dyadic
              st_image r.2 1%positive 2%positive image_2x2 2 2
              (Some "coeffs.txt"%string) unit_preview None None None 0%Z)
    as (Hnew & path & xc & yc & lf & shift & xo & yo & c & a' & _ & _ & _
        & _ & _ & Hc & _ & Hsc & Ha' & Hsa' & _ & Hitem).
  - reflexivity.
  - reflexivity.
  - apply pair_of_run. vm_compute. reflexivity.
  - split; [exact Hnew|]. exists c, a'.
    repeat (split; [assumption|]). exact Hitem.
Defined.


(** One frame: block 1 is outside the data. *)
Lemma normalize_raw_cuda_other_frame_counts_witness :
  (normalize_raw_cuda log_series 1%positive 2%positive 3%positive 0%Z 10%Q
     false false st_one_frame).1 = Ok OutOfBounds.
Proof.
  destruct (normalize_raw_cuda_other_frame_counts log_series st_one_frame
              1%positive 2%positive 3%positive
              (full uint16 [1; 2; 2]%nat 12%Q)
              (full float32 [2; 2; 2]%nat 3%Q)
              (full float32 [2; 2; 2]%nat 1%Q)
              1 2 2 2 2 [2; 2]%nat [2; 2]%nat 0%Z 10%Q false false
              eq_refl eq_refl eq_refl eq_refl eq_refl eq_refl eq_refl)
    as [_ H].
  apply H; try lia. repeat split; vm_compute; reflexivity.
Defined.

(** Finite data need not give an element at most the cutoff: with the
    largest float32 as data and as flat, and its opposite as dark, both
    differences are infinite and their quotient is a NaN, which the cutoff
    step leaves. *)
Example normalize_pixel_binary32_nan :
  normalize_pixel_binary32 (S754_finite false 16777215 104)
    (S754_finite false 16777215 104) (S754_finite true 16777215 104)
    (binary32 10)
  = S754_nan.
Proof. vm_compute. reflexivity. Qed.

(** The two frames of 2 x 2 pixels: frame 0, then frame 1. *)
Lemma correct_distortion_resamples_each_frame_once_witness :
  trace (correct_distortion decimal_float sqrt_dyadic 1%positive
           (Some "coeffs.txt"%string) unit_preview None None None 0%Z
           st_identity).2
  = [Resample 0; Resample 1].
Proof.
  apply (correct_distortion_resamples_each_frame_once decimal_float
           sqrt_dyadic st_identity _ 1%positive 3%positive stack_2x2x2
           (Some "coeffs.txt"%string) unit_preview None None None 0%Z).
  - reflexivity.
  - apply pair_of_run. vm_compute. reflexivity.
Defined.
